(** * addrs: IPv4 address and network arithmetic (src/addrs.js)

    A shallow embedding of [Ipv4Address] and [Ipv4Network] and of the
    fragment of JavaScript they are written in.

    Numbers.  Every number the library handles is an integer-valued double
    or NaN; integers are embedded as [Z] (exact, as doubles are below 2^53)
    and NaN as a constructor of its own.  The bit operators convert their
    operands with ToInt32 / ToUint32, take the shift count modulo 32 and
    return a signed 32-bit result ([>>>] an unsigned one), as ECMAScript
    defines them.  The sign of zero is not tracked ([parseInt("-0")] is
    read as 0); no operation here can observe it. *)

From Stdlib Require Import ZArith List String Ascii Bool Lia.
From Stdlib Require Import DecimalString.
Import ListNotations.

Local Open Scope Z_scope.

(** ** JavaScript numbers and operators *)

Inductive number : Type :=
| Fin (z : Z)
| NaN.

(** A value read from an object: a number, or a method that has not been
    called. *)
Inductive value : Type :=
| VNumber (n : number)
| VFunction.

(** Completion of a call: a returned value or a thrown [Error]. *)
Inductive result (A : Type) : Type :=
| Ok (a : A)
| Throw (message : string).

Arguments Ok {A} a.
Arguments Throw {A} message.

Module JS.

Definition ToUint32 (n : number) : Z :=
  match n with
  | Fin z => z mod 4294967296
  | NaN => 0
  end.

Definition ToInt32 (n : number) : Z :=
  let u := ToUint32 n in
  if 2147483648 <=? u then u - 4294967296 else u.

(** ToNumber of a function object goes through its source text, which is
    not a numeric literal. *)
Definition ToNumber (v : value) : number :=
  match v with
  | VNumber n => n
  | VFunction => NaN
  end.

Definition shift_count (n : number) : Z := ToUint32 n mod 32.

(** [a << b] *)
Definition shl (a b : number) : number :=
  Fin (ToInt32 (Fin (Z.shiftl (ToInt32 a) (shift_count b)))).

(** [a >> b] *)
Definition sar (a b : number) : number :=
  Fin (Z.shiftr (ToInt32 a) (shift_count b)).

(** [a >>> b] *)
Definition shr (a b : number) : number :=
  Fin (Z.shiftr (ToUint32 a) (shift_count b)).

(** [a & b] *)
Definition band (a b : number) : number :=
  Fin (Z.land (ToInt32 a) (ToInt32 b)).

(** [a | b] *)
Definition bor (a b : number) : number :=
  Fin (Z.lor (ToInt32 a) (ToInt32 b)).

(** [~a] *)
Definition bnot (a : number) : number :=
  Fin (Z.lnot (ToInt32 a)).

Definition lift2 (f : Z -> Z -> Z) (a b : number) : number :=
  match a, b with
  | Fin x, Fin y => Fin (f x y)
  | _, _ => NaN
  end.

Definition add : number -> number -> number := lift2 Z.add.
Definition sub : number -> number -> number := lift2 Z.sub.
Definition mul : number -> number -> number := lift2 Z.mul.

Definition cmp (f : Z -> Z -> bool) (a b : number) : bool :=
  match a, b with
  | Fin x, Fin y => f x y
  | _, _ => false
  end.

(** [a <= b], [a < b], [a == b] on numbers: false as soon as one is NaN. *)
Definition le : number -> number -> bool := cmp Z.leb.
Definition lt : number -> number -> bool := cmp Z.ltb.
Definition eq : number -> number -> bool := cmp Z.eqb.

(** [a != b] *)
Definition neq (a b : number) : bool := negb (eq a b).

Definition Math_abs (a : number) : number :=
  match a with
  | Fin x => Fin (Z.abs x)
  | NaN => NaN
  end.

Definition Math_min : number -> number -> number := lift2 Z.min.

(** [Math.pow] on an integer base and exponent.  A negative exponent
    gives a fraction, which this embedding has no value for; both call
    sites pass a non-negative exponent ([split] after its guard,
    [fromString] with [array.length - index - 1]).  The power is exact:
    this is [Math.pow] as long as the result is an exact double (never
    Infinity), which covers 2^e for e <= 32 and 256^e, 10^e for e <= 15. *)
Definition Math_pow (b e : number) : number :=
  match b, e with
  | Fin x, Fin y => if y <? 0 then NaN else Fin (x ^ y)
  | _, _ => NaN
  end.

(** Number::toString, radix 10: the exact digits, which is what
    JavaScript prints for the integers below 2^53 in absolute value. *)
Definition Number_toString (n : number) : string :=
  match n with
  | Fin z => NilZero.string_of_int (Z.to_int z)
  | NaN => "NaN"
  end.

(** [Math.max]: NaN as soon as one argument is NaN. *)
Definition Math_max : number -> number -> number := lift2 Z.max.

(** [Math.floor] on an integer or NaN. *)
Definition Math_floor (a : number) : number := a.

(** The binary numeral of a positive integer, most significant bit first. *)
Fixpoint binary_digits (p : positive) : string :=
  match p with
  | xH => "1"
  | xO p' => (binary_digits p' ++ "0")%string
  | xI p' => (binary_digits p' ++ "1")%string
  end.

(** Number::toString, radix 2, on an integer or NaN. *)
Definition Number_toString_2 (n : number) : string :=
  match n with
  | Fin Z0 => "0"
  | Fin (Zpos p) => binary_digits p
  | Fin (Zneg p) => ("-" ++ binary_digits p)%string
  | NaN => "NaN"
  end.

End JS.

(** ** Strings and arrays *)

Module Str.

(** [s.split(sep)] for a separator of one character. *)
Fixpoint split (sep : ascii) (s : string) : list string :=
  match s with
  | EmptyString => [EmptyString]
  | String c rest =>
      if Ascii.eqb c sep then EmptyString :: split sep rest
      else match split sep rest with
           | piece :: pieces => String c piece :: pieces
           | [] => [String c EmptyString]
           end
  end.

(** [array.join(sep)] on elements already converted to strings. *)
Fixpoint join (sep : string) (l : list string) : string :=
  match l with
  | [] => EmptyString
  | [x] => x
  | x :: rest => (x ++ sep ++ join sep rest)%string
  end.

(** StrWhiteSpaceChar among the code units below 256. *)
Definition is_whitespace (c : ascii) : bool :=
  let n := nat_of_ascii c in
  (Nat.leb 9 n && Nat.leb n 13) || Nat.eqb n 32 || Nat.eqb n 160.

Fixpoint trim_left (s : string) : string :=
  match s with
  | EmptyString => EmptyString
  | String c rest => if is_whitespace c then trim_left rest else s
  end.

Definition digit_value (c : ascii) : option Z :=
  let n := Z.of_nat (nat_of_ascii c) in
  if (48 <=? n) && (n <=? 57) then Some (n - 48)
  else if (97 <=? n) && (n <=? 122) then Some (n - 87)
  else if (65 <=? n) && (n <=? 90) then Some (n - 55)
  else None.

(** The longest prefix of digits of the radix, as a number; [acc] is
    [None] until a digit has been read. *)
Fixpoint parse_digits (radix : Z) (s : string) (acc : option Z) : option Z :=
  match s with
  | EmptyString => acc
  | String c rest =>
      match digit_value c with
      | Some d =>
          if d <? radix then
            parse_digits radix rest
              (Some (match acc with Some a => a * radix + d | None => d end))
          else acc
      | None => acc
      end
  end.

(** [parseInt(s)] without a radix argument. *)
Definition parseInt (s : string) : number :=
  let s1 := trim_left s in
  let '(sign, s2) :=
    match s1 with
    | String "-"%char rest => (-1, rest)
    | String "+"%char rest => (1, rest)
    | _ => (1, s1)
    end in
  let '(radix, s3) :=
    match s2 with
    | String "0"%char (String "x"%char rest) => (16, rest)
    | String "0"%char (String "X"%char rest) => (16, rest)
    | _ => (10, s2)
    end in
  match parse_digits radix s3 None with
  | Some v => Fin (sign * v)
  | None => NaN
  end.

(** [s.length] *)
Definition length (s : string) : number := Fin (Z.of_nat (String.length s)).

(** [s.substr(1)]: the text after the first character. *)
Definition substr_1 (s : string) : string :=
  match s with
  | EmptyString => EmptyString
  | String _ rest => rest
  end.

End Str.

Module Arr.

(** [array.map((x, index, array) => ...)] *)
Fixpoint map_from {A B : Type} (f : A -> number -> list A -> B)
    (array : list A) (index : Z) (l : list A) : list B :=
  match l with
  | [] => []
  | x :: rest => f x (Fin index) array :: map_from f array (index + 1) rest
  end.

Definition map {A B : Type} (f : A -> number -> list A -> B)
    (array : list A) : list B :=
  map_from f array 0 array.

(** [array.reduce(f)] without an initial value: a TypeError on the empty
    array. *)
Definition reduce {A : Type} (f : A -> A -> A) (array : list A) : result A :=
  match array with
  | [] => Throw "Reduce of empty array with no initial value"
  | x :: rest => Ok (fold_left f rest x)
  end.

Definition length {A : Type} (array : list A) : number :=
  Fin (Z.of_nat (List.length array)).

End Arr.

(** ** binaryPad *)

(** [zeroString + n] appends the decimal text of [n]. *)
Definition binaryPad (num numZeros : number) : string :=
  let n := JS.Math_abs num in
  let zeros :=
    JS.Math_max (Fin 0)
      (JS.sub numZeros (Str.length (JS.Number_toString (JS.Math_floor n)))) in
  let zeroString :=
    Str.substr_1 (JS.Number_toString (JS.Math_pow (Fin 10) zeros)) in
  (zeroString ++ JS.Number_toString n)%string.

(** ** Ipv4Address *)

Definition IPV4_MAX_PREFIXLEN : number := Fin 32.

Record Ipv4Address : Type := new_Ipv4Address { _int_repr : number }.

Definition integer (this : Ipv4Address) : number := _int_repr this.

(** The property [integer] read without a call: the method itself. *)
Definition integer_method (this : Ipv4Address) : value := VFunction.

Definition bits (this : Ipv4Address) : string :=
  Str.join "."
    [ binaryPad
        (Str.parseInt
           (JS.Number_toString_2
              (JS.band (JS.shr (_int_repr this) (Fin 24)) (Fin 255))))
        (Fin 8);
      binaryPad
        (Str.parseInt
           (JS.Number_toString_2
              (JS.band (JS.shr (_int_repr this) (Fin 16)) (Fin 255))))
        (Fin 8);
      binaryPad
        (Str.parseInt
           (JS.Number_toString_2
              (JS.band (JS.shr (_int_repr this) (Fin 8)) (Fin 255))))
        (Fin 8);
      binaryPad
        (Str.parseInt
           (JS.Number_toString_2 (JS.band (_int_repr this) (Fin 255))))
        (Fin 8) ].

Definition _toIpStr (value : number) : string :=
  Str.join "."
    [ JS.Number_toString (JS.band (JS.sar value (Fin 24)) (Fin 255));
      JS.Number_toString (JS.band (JS.sar value (Fin 16)) (Fin 255));
      JS.Number_toString (JS.band (JS.sar value (Fin 8)) (Fin 255));
      JS.Number_toString (JS.band value (Fin 255)) ].

Definition Ipv4Address_toString (this : Ipv4Address) : string :=
  _toIpStr (_int_repr this).

Definition Ipv4Address_fromString (address : string) : result Ipv4Address :=
  match
    Arr.reduce (fun prev curr => JS.add prev curr)
      (Arr.map
         (fun octet index array =>
            JS.mul (Str.parseInt octet)
              (JS.Math_pow (Fin 256)
                 (JS.sub (JS.sub (Arr.length array) index) (Fin 1))))
         (Str.split "." address))
  with
  | Ok integer => Ok (new_Ipv4Address integer)
  | Throw e => Throw e
  end.

(** ** Ipv4Network *)

Record Ipv4Network : Type := mk_Ipv4Network {
  address : Ipv4Address;
  prefixlen : number;
  _netmask : number
}.

(** The constructor. *)
Definition new_Ipv4Network (address : Ipv4Address) (prefixlen : number)
    : Ipv4Network :=
  {| address := address;
     prefixlen := prefixlen;
     _netmask :=
       JS.shl (JS.sub (JS.shl (Fin 1) prefixlen) (Fin 1))
         (JS.sub IPV4_MAX_PREFIXLEN prefixlen) |}.

Definition first (this : Ipv4Network) (host : bool) : Ipv4Address :=
  new_Ipv4Address
    (JS.add (JS.band (integer (address this)) (_netmask this))
       (if host then Fin 1 else Fin 0)).

Definition last (this : Ipv4Network) (host : bool) : Ipv4Address :=
  new_Ipv4Address
    (JS.sub
       (JS.add (JS.band (integer (address this)) (_netmask this))
          (JS.bnot (_netmask this)))
       (if host then Fin 1 else Fin 0)).

Definition network (this : Ipv4Network) : Ipv4Address := first this false.

Definition broadcast (this : Ipv4Network) : Ipv4Address := last this false.

Definition netmask (this : Ipv4Network) : Ipv4Address :=
  new_Ipv4Address (_netmask this).

(** [hosts()]: the [for] loop, one unit of fuel per test of its condition;
    [None] when the fuel runs out before the condition fails. *)
Fixpoint hosts_loop (fuel : nat) (this : Ipv4Network) (i : number)
    (hosts : list Ipv4Address) : option (list Ipv4Address) :=
  match fuel with
  | O => None
  | S fuel' =>
      if JS.le i (integer (last this true)) then
        hosts_loop fuel' this (JS.add i (Fin 1))
          (hosts ++ [new_Ipv4Address i])
      else Some hosts
  end.

Definition hosts (fuel : nat) (this : Ipv4Network)
    : option (list Ipv4Address) :=
  hosts_loop fuel this (integer (first this true)) [].

(** [split(prefixlen)]: the loop and the guard before it.  The counter is
    exact and the array unbounded: this is the loop of the source as long
    as [numNetworks] is below the 2^32 - 1 elements an array can hold. *)
Fixpoint split_loop (fuel : nat) (this : Ipv4Network) (prefixlen : number)
    (numNetworks : number) (i : number) (networks : list Ipv4Network)
    : option (list Ipv4Network) :=
  match fuel with
  | O => None
  | S fuel' =>
      if JS.lt i numNetworks then
        let newNetworkIntRepr :=
          JS.shl
            (JS.add
               (JS.shr (integer (address this))
                  (JS.sub IPV4_MAX_PREFIXLEN prefixlen))
               i)
            (JS.sub IPV4_MAX_PREFIXLEN prefixlen) in
        let newNetworkAddr := new_Ipv4Address newNetworkIntRepr in
        let newNetwork := new_Ipv4Network newNetworkAddr prefixlen in
        split_loop fuel' this prefixlen numNetworks (JS.add i (Fin 1))
          (networks ++ [newNetwork])
      else Some networks
  end.

Definition split (fuel : nat) (this : Ipv4Network) (prefixlen' : number)
    : option (result (list Ipv4Network)) :=
  if JS.le prefixlen' (prefixlen this) then
    Some (Throw "The requested prefix length must be larger than the supernet")
  else
    let numNetworks :=
      JS.Math_pow (Fin 2) (JS.sub prefixlen' (prefixlen this)) in
    option_map Ok (split_loop fuel this prefixlen' numNetworks (Fin 0) []).

Definition overlaps (this network : Ipv4Network) : bool :=
  JS.le
    (JS.band (integer (address network)) (integer (netmask network)))
    (JS.bor (integer (address this)) (JS.bnot (integer (netmask this))))
  &&
  JS.le
    (JS.band (integer (address this)) (integer (netmask this)))
    (JS.bor (integer (address network)) (JS.bnot (integer (netmask network)))).

(** [network.last().integer] is read but not called in the first operand. *)
Definition isContiguous (this network : Ipv4Network) : bool :=
  JS.eq
    (JS.Math_abs
       (JS.sub (integer (first this false))
          (JS.ToNumber (integer_method (last network false)))))
    (Fin 1)
  ||
  JS.eq
    (JS.Math_abs
       (JS.sub (integer (last this false)) (integer (first network false))))
    (Fin 1).

Definition merge (this network : Ipv4Network) : result Ipv4Network :=
  if negb (isContiguous this network) then
    Throw "Address space must be congiguous in order to merge networks"
  else if JS.neq (prefixlen this) (prefixlen network) then
    Throw "Networks must be the same prefix length in order to merge"
  else
    Ok (new_Ipv4Network
          (new_Ipv4Address
             (JS.Math_min (integer (address this))
                (integer (address network))))
          (JS.sub (prefixlen this) (Fin 1))).

Definition Ipv4Network_toString (this : Ipv4Network) : string :=
  (Ipv4Address_toString (address this) ++ "/"
     ++ JS.Number_toString (prefixlen this))%string.

(** [Ipv4Network.fromCidr]; [parts[1]] is [undefined] when the text has no
    slash, and [parseInt(undefined)] is NaN. *)
Definition Ipv4Network_fromCidr (cidr : string) : result Ipv4Network :=
  let parts := Str.split "/" cidr in
  match Ipv4Address_fromString (nth 0 parts EmptyString) with
  | Ok addr =>
      Ok (new_Ipv4Network addr
            (match nth_error parts 1 with
             | Some text => Str.parseInt text
             | None => NaN
             end))
  | Throw e => Throw e
  end.

(** * Notions used by the properties *)

(** ** Address ranges *)

(** The integers [network()] and [broadcast()] return, and the closed
    interval between them.  The integers are signed: the interval is the
    address range for prefix lengths 1 to 31, and the empty [0, -1] when
    the netmask is 0. *)
Definition in_range (n : Ipv4Network) (x : Z) : Prop :=
  JS.le (integer (network n)) (Fin x) = true
  /\ JS.le (Fin x) (integer (broadcast n)) = true.

(** The addresses of a network: the unsigned 32-bit readings from
    [network()] to [broadcast()]. *)
Definition address_range (n : Ipv4Network) (x : Z) : Prop :=
  JS.ToUint32 (integer (network n)) <= x
  <= JS.ToUint32 (integer (broadcast n)).

(** Adjacency of two networks as the specification words it. *)
Definition adjacent (a b : Ipv4Network) : Prop :=
  JS.eq
    (JS.Math_abs (JS.sub (integer (network a)) (integer (broadcast b))))
    (Fin 1) = true
  \/
  JS.eq
    (JS.Math_abs (JS.sub (integer (broadcast a)) (integer (network b))))
    (Fin 1) = true.

(** The same integers, computed on [Z]. *)
Definition base_int (n : Ipv4Network) : Z := JS.ToInt32 (integer (address n)).
Definition mask_int (n : Ipv4Network) : Z := JS.ToInt32 (_netmask n).
Definition network_int (n : Ipv4Network) : Z :=
  Z.land (base_int n) (mask_int n).
Definition broadcast_int (n : Ipv4Network) : Z :=
  network_int n + Z.lnot (mask_int n).


(** ** The loops *)

(** The network pushed at iteration [i] of [split]. *)
Definition child (this : Ipv4Network) (q : number) (i : Z) : Ipv4Network :=
  new_Ipv4Network
    (new_Ipv4Address
       (JS.shl
          (JS.add
             (JS.shr (integer (address this)) (JS.sub IPV4_MAX_PREFIXLEN q))
             (Fin i))
          (JS.sub IPV4_MAX_PREFIXLEN q)))
    q.

(** [start], [start + 1], ... ([len] integers). *)
Fixpoint Zseq (start : Z) (len : nat) : list Z :=
  match len with
  | O => []
  | S len' => start :: Zseq (start + 1) len'
  end.

(** ** Dotted-decimal text *)

Fixpoint no_dot (s : string) : bool :=
  match s with
  | EmptyString => true
  | String c rest => negb (Ascii.eqb c ".") && no_dot rest
  end.

(** An octet prints as text without a dot that [parseInt] reads back. *)
Definition octet_text_ok (o : Z) : bool :=
  match Str.parseInt (JS.Number_toString (Fin o)) with
  | Fin z => (z =? o) && no_dot (JS.Number_toString (Fin o))
  | NaN => false
  end.

(** ** Binary text *)

(** The binary digit of bit [k] of [o]. *)
Definition bit_char (o : Z) (k : Z) : ascii :=
  if Z.testbit o k then "1"%char else "0"%char.

(** The eight low bits of [o], most significant first. *)
Definition bin8 (o : Z) : string :=
  String (bit_char o 7) (String (bit_char o 6) (String (bit_char o 5)
    (String (bit_char o 4) (String (bit_char o 3) (String (bit_char o 2)
      (String (bit_char o 1) (String (bit_char o 0) EmptyString))))))).

(** Octet [k] (0 the most significant) of the unsigned 32-bit reading. *)
Definition octet (n : number) (k : Z) : Z :=
  (JS.ToUint32 n / 2 ^ (24 - 8 * k)) mod 256.

(** [k] zeros. *)
Fixpoint zeros_text (k : nat) : string :=
  match k with
  | O => EmptyString
  | S k' => String "0" (zeros_text k')
  end.

Fixpoint no_slash (s : string) : bool :=
  match s with
  | EmptyString => true
  | String c rest => negb (Ascii.eqb c "/") && no_slash rest
  end.

(** ** Concrete networks *)

Definition ip (a b c d : Z) : Ipv4Address :=
  new_Ipv4Address (Fin (((a * 256 + b) * 256 + c) * 256 + d)).

Definition net_0_0_0_0_0 : Ipv4Network :=
  new_Ipv4Network (ip 0 0 0 0) (Fin 0).
Definition net_10_0_0_0_8 : Ipv4Network :=
  new_Ipv4Network (ip 10 0 0 0) (Fin 8).
Definition net_10_0_0_1_32 : Ipv4Network :=
  new_Ipv4Network (ip 10 0 0 1) (Fin 32).
Definition net_10_47_0_0_16 : Ipv4Network :=
  new_Ipv4Network (ip 10 47 0 0) (Fin 16).
Definition net_10_47_0_5_16 : Ipv4Network :=
  new_Ipv4Network (ip 10 47 0 5) (Fin 16).
Definition net_10_47_0_0_17 : Ipv4Network :=
  new_Ipv4Network (ip 10 47 0 0) (Fin 17).
Definition net_10_47_64_0_18 : Ipv4Network :=
  new_Ipv4Network (ip 10 47 64 0) (Fin 18).
Definition net_10_47_64_0_16 : Ipv4Network :=
  new_Ipv4Network (ip 10 47 64 0) (Fin 16).
Definition net_192_168_1_0_24 : Ipv4Network :=
  new_Ipv4Network (ip 192 168 1 0) (Fin 24).
Definition net_10_0_0_0_24 : Ipv4Network :=
  new_Ipv4Network (ip 10 0 0 0) (Fin 24).
Definition net_10_0_1_0_24 : Ipv4Network :=
  new_Ipv4Network (ip 10 0 1 0) (Fin 24).
Definition net_10_0_0_5_24 : Ipv4Network :=
  new_Ipv4Network (ip 10 0 0 5) (Fin 24).


(** * Properties *)

(** ** Numbers *)

Section Int32.

Lemma ToUint32_range (n : number) : 0 <= JS.ToUint32 n < 4294967296.
Proof.
  destruct n as [z|]; simpl; [apply Z.mod_pos_bound|]; lia.
Qed.

Lemma ToInt32_range (n : number) :
  -2147483648 <= JS.ToInt32 n < 2147483648.
Proof.
  unfold JS.ToInt32. pose proof (ToUint32_range n) as H.
  destruct (Z.leb_spec 2147483648 (JS.ToUint32 n)); lia.
Qed.

Lemma ToInt32_small (z : Z) :
  -2147483648 <= z < 2147483648 -> JS.ToInt32 (Fin z) = z.
Proof.
  intros H. unfold JS.ToInt32, JS.ToUint32.
  destruct (Z.leb_spec 2147483648 (z mod 4294967296)) as [Hc|Hc];
    revert Hc; Z.div_mod_to_equations; lia.
Qed.

Lemma ToInt32_idem (n : number) :
  JS.ToInt32 (Fin (JS.ToInt32 n)) = JS.ToInt32 n.
Proof. apply ToInt32_small, ToInt32_range. Qed.

(** The signed and the unsigned reading differ by a multiple of 2^32. *)
Lemma ToInt32_ToUint32 (n : number) :
  JS.ToInt32 n = JS.ToUint32 n \/ JS.ToInt32 n = JS.ToUint32 n - 4294967296.
Proof.
  unfold JS.ToInt32. destruct (2147483648 <=? JS.ToUint32 n); auto.
Qed.

Lemma ToInt32_lnot (n : number) :
  JS.ToInt32 (Fin (Z.lnot (JS.ToInt32 n))) = Z.lnot (JS.ToInt32 n).
Proof.
  apply ToInt32_small. pose proof (ToInt32_range n).
  unfold Z.lnot. lia.
Qed.

End Int32.

(** A property of the integers below [n] holds as soon as it holds of each
    of them in turn. *)
Lemma Z_below_ind (P : Z -> Prop) (n : nat) :
  (forall k : nat, (k < n)%nat -> P (Z.of_nat k)) ->
  forall z, 0 <= z < Z.of_nat n -> P z.
Proof.
  intros H z Hz. rewrite <- (Z2Nat.id z) by lia. apply H. lia.
Qed.

Ltac walk_below k :=
  first
    [ solve [exfalso; lia]
    | destruct k as [|k]; [vm_compute; try reflexivity | walk_below k] ].

Ltac each_below n :=
  apply (Z_below_ind _ n);
  let k := fresh "k" in
  let Hk := fresh "Hk" in
  intros k Hk; walk_below k.

(** ** The netmask *)

Section Netmask.

Variable a : Ipv4Address.

(** The netmask of a /p network, 0 <= p <= 31, as the signed number the
    constructor stores: 0 for p = 0 and -2^(32-p) otherwise. *)
Lemma netmask_value (p : Z) :
  0 <= p <= 31 ->
  _netmask (new_Ipv4Network a (Fin p))
  = Fin (if p =? 0 then 0 else - 2 ^ (32 - p)).
Proof.
  intros Hp. assert (H : 0 <= p < Z.of_nat 32) by lia. clear Hp.
  revert p H. unfold new_Ipv4Network, _netmask. each_below 32%nat.
Qed.

(** Read as an unsigned 32-bit value, that is p leading ones followed
    by 32-p zeros. *)
Lemma netmask_bits (p : Z) :
  0 <= p <= 31 ->
  JS.ToUint32 (integer (netmask (new_Ipv4Network a (Fin p))))
  = 2 ^ 32 - 2 ^ (32 - p).
Proof.
  intros Hp. assert (H : 0 <= p < Z.of_nat 32) by lia. clear Hp.
  revert p H.
  unfold netmask, integer, _int_repr, new_Ipv4Network, _netmask.
  each_below 32%nat.
Qed.

Lemma netmask_32 : _netmask (new_Ipv4Network a (Fin 32)) = Fin 0.
Proof. reflexivity. Qed.

End Netmask.


(** ** Bitwise facts behind network() and broadcast() *)

Section Bits.

Lemma land_land_lnot (x m : Z) : Z.land (Z.land x m) (Z.lnot m) = 0.
Proof.
  apply Z.bits_inj'. intros n Hn.
  rewrite !Z.land_spec, Z.lnot_spec, Z.bits_0 by lia.
  destruct (Z.testbit x n), (Z.testbit m n); reflexivity.
Qed.

(** [x | ~m] is [(x & m) + ~m]: the two summands share no bit. *)
Lemma lor_lnot_add (x m : Z) : Z.lor x (Z.lnot m) = Z.land x m + Z.lnot m.
Proof.
  pose proof (land_land_lnot x m) as H.
  rewrite (Z.add_nocarry_lxor _ _ H), (Z.lxor_lor _ _ H).
  apply Z.bits_inj'. intros n Hn.
  rewrite !Z.lor_spec, Z.land_spec, Z.lnot_spec by lia.
  destruct (Z.testbit x n), (Z.testbit m n); reflexivity.
Qed.

(** Masking with -2^k clears the k low bits. *)
Lemma land_neg_pow2 (x k : Z) :
  0 <= k -> Z.land x (- 2 ^ k) = 2 ^ k * (x / 2 ^ k).
Proof.
  intros Hk.
  replace (- 2 ^ k) with (Z.lnot (Z.ones k))
    by (rewrite Z.ones_equiv; unfold Z.lnot; lia).
  rewrite <- Z.ldiff_land, Z.ldiff_ones_r by assumption.
  rewrite Z.shiftl_mul_pow2, Z.shiftr_div_pow2 by assumption. lia.
Qed.

Lemma lnot_neg_pow2 (k : Z) : Z.lnot (- 2 ^ k) = 2 ^ k - 1.
Proof. unfold Z.lnot. lia. Qed.

End Bits.

(** ** Address ranges *)

Section Ranges.

Lemma network_integer (n : Ipv4Network) :
  integer (network n) = Fin (network_int n).
Proof.
  unfold network, first, network_int, base_int, mask_int, integer; simpl.
  unfold JS.band, JS.add, JS.lift2. rewrite Z.add_0_r. reflexivity.
Qed.

Lemma broadcast_integer (n : Ipv4Network) :
  integer (broadcast n) = Fin (broadcast_int n).
Proof.
  unfold broadcast, last, broadcast_int, network_int, base_int, mask_int,
    integer; simpl.
  unfold JS.band, JS.bnot, JS.add, JS.sub, JS.lift2. rewrite Z.sub_0_r.
  reflexivity.
Qed.

Lemma in_range_iff (n : Ipv4Network) (x : Z) :
  in_range n x <-> network_int n <= x <= broadcast_int n.
Proof.
  unfold in_range. rewrite network_integer, broadcast_integer.
  unfold JS.le, JS.cmp. rewrite !Z.leb_le. reflexivity.
Qed.

Lemma overlaps_iff (a b : Ipv4Network) :
  overlaps a b = true
  <-> network_int b <= broadcast_int a /\ network_int a <= broadcast_int b.
Proof.
  unfold overlaps, netmask, integer; simpl.
  unfold JS.band, JS.bor, JS.bnot, JS.le, JS.cmp.
  rewrite !ToInt32_lnot, !lor_lnot_add.
  rewrite andb_true_iff, !Z.leb_le. reflexivity.
Qed.

Lemma isContiguous_iff (a b : Ipv4Network) :
  isContiguous a b = true
  <-> Z.abs (broadcast_int a - network_int b) = 1.
Proof.
  unfold isContiguous.
  change (first b false) with (network b).
  change (last a false) with (broadcast a).
  change (first a false) with (network a).
  rewrite !network_integer, broadcast_integer. simpl.
  rewrite Z.eqb_eq. reflexivity.
Qed.

Lemma adjacent_iff (a b : Ipv4Network) :
  adjacent a b
  <-> Z.abs (network_int a - broadcast_int b) = 1
      \/ Z.abs (broadcast_int a - network_int b) = 1.
Proof.
  unfold adjacent. rewrite !network_integer, !broadcast_integer. simpl.
  rewrite !Z.eqb_eq. reflexivity.
Qed.

(** The mask of a constructed /p network, as a signed integer. *)
Lemma mask_int_value (a : Ipv4Address) (p : Z) :
  0 <= p <= 32 ->
  mask_int (new_Ipv4Network a (Fin p))
  = if (p =? 0) || (p =? 32) then 0 else - 2 ^ (32 - p).
Proof.
  intros Hp. assert (H : 0 <= p < Z.of_nat 33) by lia. clear Hp.
  revert p H. unfold mask_int, new_Ipv4Network, _netmask.
  each_below 33%nat.
Qed.

(** Either the mask is 0 and the range [0, -1] is empty, or the range is
    not empty and lies on one side of zero. *)
Lemma range_shape (a : Ipv4Address) (p : Z) :
  0 <= p <= 32 ->
  let n := new_Ipv4Network a (Fin p) in
  (network_int n = 0 /\ broadcast_int n = -1)
  \/ (network_int n <= broadcast_int n
      /\ (network_int n <= -1 -> broadcast_int n <= -1)).
Proof.
  intros Hp n. unfold broadcast_int, network_int.
  assert (Hm : mask_int n = if (p =? 0) || (p =? 32) then 0 else - 2 ^ (32 - p))
    by (apply mask_int_value; assumption).
  rewrite Hm.
  destruct ((p =? 0) || (p =? 32)) eqn:E.
  - left. rewrite Z.land_0_r. split; reflexivity.
  - right. apply orb_false_iff in E. destruct E as [E0 E32].
    apply Z.eqb_neq in E0, E32.
    rewrite land_neg_pow2, lnot_neg_pow2 by lia.
    assert (0 < 2 ^ (32 - p)) by (apply Z.pow_pos_nonneg; lia).
    split; [lia|]. intros Hneg.
    assert (base_int n / 2 ^ (32 - p) <= -1) by nia. nia.
Qed.

End Ranges.


Lemma fromCidr_examples :
  Ipv4Network_fromCidr "10.47.0.0/16" = Ok net_10_47_0_0_16
  /\ Ipv4Network_fromCidr "10.47.0.0/17" = Ok net_10_47_0_0_17
  /\ Ipv4Network_fromCidr "10.47.64.0/18" = Ok net_10_47_64_0_18
  /\ Ipv4Network_fromCidr "192.168.1.0/24" = Ok net_192_168_1_0_24
  /\ Ipv4Network_fromCidr "10.0.0.0/24" = Ok net_10_0_0_0_24
  /\ Ipv4Network_fromCidr "10.0.1.0/24" = Ok net_10_0_1_0_24.
Proof. repeat split; vm_compute; reflexivity. Qed.

(** ** Concrete networks *)

(** ** The netmask at prefix length 32 *)

(** C1.  The constructor computes the netmask as
    [((1 << p) - 1) << (32 - p)].  For 0 <= p <= 31 this is p leading ones
    followed by zeros ([netmask_bits]); for p = 32 the shift count 32 is
    taken modulo 32, [1 << 32] is 1, and the netmask is 0 where the claim
    asks for all ones. *)
Theorem netmask_prefix_32_is_zero (a : Ipv4Address) :
  let n := new_Ipv4Network a (Fin 32) in
  integer (netmask n) = Fin 0
  /\ JS.ToUint32 (integer (netmask n)) <> 2 ^ 32 - 1.
Proof. split; [reflexivity | vm_compute; discriminate]. Qed.

(** ** overlaps *)

(** C9.  [a.overlaps(b)] and [b.overlaps(a)] are the same boolean, for any
    two networks. *)
Theorem overlaps_symmetric (a b : Ipv4Network) :
  overlaps a b = overlaps b a.
Proof. unfold overlaps. apply andb_comm. Qed.

Lemma intervals_meet (la ha lb hb : Z) :
  la <= ha -> lb <= hb ->
  (lb <= ha /\ la <= hb <-> exists x, (la <= x <= ha) /\ (lb <= x <= hb)).
Proof.
  intros Ha Hb. split.
  - intros [H1 H2]. exists (Z.max la lb). lia.
  - intros [x [H1 H2]]. lia.
Qed.

(** On the signed integers [network()] and [broadcast()] return, and for
    prefix lengths 0 to 32, [a.overlaps(b)] is the interval test; the
    interval of a /0 or /32 network is [0, -1] there.  10.47.0.0/16
    overlaps 10.47.64.0/18 and does not overlap 192.168.1.0/24. *)
Lemma overlaps_iff_signed_ranges_intersect :
  (forall (a b : Ipv4Address) (pa pb : Z),
      0 <= pa <= 32 -> 0 <= pb <= 32 ->
      let A := new_Ipv4Network a (Fin pa) in
      let B := new_Ipv4Network b (Fin pb) in
      overlaps A B = true <-> exists x, in_range A x /\ in_range B x)
  /\ overlaps net_10_47_0_0_16 net_10_47_64_0_18 = true
  /\ overlaps net_10_47_0_0_16 net_192_168_1_0_24 = false.
Proof.
  split; [|split; reflexivity].
  intros a b pa pb Ha Hb A B.
  rewrite overlaps_iff.
  assert (Hx : (exists x, in_range A x /\ in_range B x)
               <-> exists x, (network_int A <= x <= broadcast_int A)
                             /\ (network_int B <= x <= broadcast_int B)).
  { split; intros [x Hx]; exists x; rewrite !in_range_iff in *; exact Hx. }
  rewrite Hx. clear Hx.
  destruct (range_shape a pa Ha) as [[Ha1 Ha2]|[Ha1 Ha2]];
    destruct (range_shape b pb Hb) as [[Hb1 Hb2]|[Hb1 Hb2]];
    fold A in Ha1, Ha2; fold B in Hb1, Hb2.
  - split; [lia|]. intros [x Hx]. lia.
  - split; [lia|]. intros [x Hx]. lia.
  - split; [lia|]. intros [x Hx]. lia.
  - apply intervals_meet; assumption.
Qed.

Lemma ToUint32_of_int32 (z : Z) :
  -2147483648 <= z < 2147483648 ->
  JS.ToUint32 (Fin z) = if z <? 0 then z + 4294967296 else z.
Proof.
  intros Hz. cbn [JS.ToUint32].
  destruct (Z.ltb_spec z 0).
  - replace z with (z + 4294967296 + (-1) * 4294967296) at 1 by lia.
    rewrite Z.mod_add by lia. apply Z.mod_small. lia.
  - apply Z.mod_small. lia.
Qed.

(** C3.  0.0.0.0/0 and 10.0.0.0/8 share the address 10.0.0.0, and
    10.0.0.1/32 and 10.0.0.0/24 the address 10.0.0.1, yet [overlaps]
    answers false on both pairs, in either order: the netmask of a /0 or
    /32 network is 0, its [broadcast()] is the signed integer -1, and the
    signed comparisons fail.  For prefix lengths 1 to 31 the test is right
    ([overlaps_iff_address_ranges_intersect]). *)
Theorem overlaps_misses_prefix_0_and_32 :
  ((exists x, address_range net_0_0_0_0_0 x /\ address_range net_10_0_0_0_8 x)
   /\ overlaps net_0_0_0_0_0 net_10_0_0_0_8 = false
   /\ overlaps net_10_0_0_0_8 net_0_0_0_0_0 = false)
  /\ ((exists x,
         address_range net_10_0_0_1_32 x /\ address_range net_10_0_0_0_24 x)
      /\ integer (address net_10_0_0_1_32) = Fin 167772161
      /\ address_range net_10_0_0_0_24 167772161
      /\ overlaps net_10_0_0_1_32 net_10_0_0_0_24 = false
      /\ overlaps net_10_0_0_0_24 net_10_0_0_1_32 = false).
Proof.
  split.
  - split; [|split; reflexivity].
    exists 167772160. split; split; vm_compute; discriminate.
  - split; [|split; [reflexivity|split; [|split; reflexivity]]].
    + exists 167772161. split; split; vm_compute; discriminate.
    + split; vm_compute; discriminate.
Qed.

(** ** isContiguous and merge *)

(** C2.  10.0.1.0/24 and 10.0.0.0/24 are adjacent (the network address of
    the first is one more than the broadcast address of the second), and
    [isContiguous] answers false: its first operand subtracts the method
    [integer] itself, not its result, so only the second operand can ever
    hold ([isContiguous_iff]). *)
Theorem isContiguous_misses_preceding_network :
  adjacent net_10_0_1_0_24 net_10_0_0_0_24
  /\ isContiguous net_10_0_1_0_24 net_10_0_0_0_24 = false.
Proof. split; [left|]; reflexivity. Qed.

(** When [merge] throws: the contiguity test failed, or it passed and the
    prefix lengths differ. *)
Lemma merge_throws_iff (a b : Ipv4Network) :
  (exists message, merge a b = Throw message)
  <-> isContiguous a b = false
      \/ JS.neq (prefixlen a) (prefixlen b) = true.
Proof.
  unfold merge.
  destruct (isContiguous a b), (JS.neq (prefixlen a) (prefixlen b)); simpl;
    split; intros H; eauto; try (destruct H as [m H]; discriminate);
    destruct H; discriminate.
Qed.

(** C6.  [merge] throws on 10.0.1.0/24 and 10.0.0.0/24, an adjacent pair
    of equal prefix length. *)
Theorem merge_throws_on_adjacent_equal_prefix :
  adjacent net_10_0_1_0_24 net_10_0_0_0_24
  /\ prefixlen net_10_0_1_0_24 = prefixlen net_10_0_0_0_24
  /\ merge net_10_0_1_0_24 net_10_0_0_0_24
     = Throw "Address space must be congiguous in order to merge networks".
Proof. split; [left|split]; reflexivity. Qed.





(** ** The loops of split and hosts *)

Section Loops.

Lemma Zseq_length (len : nat) : forall start, List.length (Zseq start len) = len.
Proof. induction len; intros; simpl; [|rewrite IHlen]; reflexivity. Qed.

Lemma Zseq_In (len : nat) :
  forall start x, In x (Zseq start len) <-> start <= x < start + Z.of_nat len.
Proof.
  induction len as [|len IH]; intros start x; simpl.
  - lia.
  - rewrite IH. lia.
Qed.

Lemma Zseq_nth (len : nat) :
  forall start k d, (k < len)%nat ->
    nth k (Zseq start len) d = start + Z.of_nat k.
Proof.
  induction len as [|len IH]; intros start k d Hk; [lia|].
  destruct k as [|k]; simpl.
  - lia.
  - rewrite IH by lia. lia.
Qed.

Lemma split_loop_step (fuel : nat) (this : Ipv4Network) (q N i : number)
    (acc : list Ipv4Network) :
  split_loop (S fuel) this q N i acc
  = if JS.lt i N then
      match i with
      | Fin z => split_loop fuel this q N (JS.add i (Fin 1)) (acc ++ [child this q z])
      | NaN => None
      end
    else Some acc.
Proof.
  destruct i as [z|]; [reflexivity|]. destruct N; reflexivity.
Qed.

Lemma hosts_loop_step (fuel : nat) (this : Ipv4Network) (i : number)
    (acc : list Ipv4Address) :
  hosts_loop (S fuel) this i acc
  = if JS.le i (integer (last this true)) then
      hosts_loop fuel this (JS.add i (Fin 1)) (acc ++ [new_Ipv4Address i])
    else Some acc.
Proof. reflexivity. Qed.

(** With [k] iterations left and one more unit of fuel for the failing
    test, the loop of [split] pushes the children [i .. i+k-1] and stops. *)
Lemma split_loop_run (this : Ipv4Network) (q : number) (N : Z) (k : nat) :
  forall (i : Z) (acc : list Ipv4Network),
    i + Z.of_nat k = N ->
    split_loop (S k) this q (Fin N) (Fin i) acc
    = Some (acc ++ map (child this q) (Zseq i k)).
Proof.
  induction k as [|k IH]; intros i acc Hi.
  - simpl. replace (i <? N) with false by (symmetry; apply Z.ltb_ge; lia).
    rewrite app_nil_r. reflexivity.
  - rewrite split_loop_step. cbn [JS.lt JS.cmp JS.add JS.lift2].
    replace (i <? N) with true by (symmetry; apply Z.ltb_lt; lia).
    rewrite IH by lia. cbn [Zseq map]. rewrite <- app_assoc. reflexivity.
Qed.

Lemma split_loop_more_fuel (this : Ipv4Network) (q N : number) (fuel : nat) :
  forall i acc r,
    split_loop fuel this q N i acc = Some r ->
    split_loop (S fuel) this q N i acc = Some r.
Proof.
  induction fuel as [|fuel IH]; intros i acc r H; [discriminate|].
  cbn [split_loop] in *. destruct (JS.lt i N); [|assumption].
  apply IH. assumption.
Qed.

Lemma split_loop_fuel_le (this : Ipv4Network) (q N : number) (i : number)
    (acc r : list Ipv4Network) (fuel fuel' : nat) :
  (fuel <= fuel')%nat ->
  split_loop fuel this q N i acc = Some r ->
  split_loop fuel' this q N i acc = Some r.
Proof.
  induction 1; [trivial|]. intros H0. apply split_loop_more_fuel; auto.
Qed.

(** [split] on a longer prefix: the children, in the order of the loop. *)
Lemma split_children (a : Ipv4Address) (p q : Z) (fuel : nat) :
  p < q ->
  (Z.to_nat (2 ^ (q - p)) < fuel)%nat ->
  split fuel (new_Ipv4Network a (Fin p)) (Fin q)
  = Some (Ok (map (child (new_Ipv4Network a (Fin p)) (Fin q))
                (Zseq 0 (Z.to_nat (2 ^ (q - p)))))).
Proof.
  intros Hpq Hfuel. unfold split. cbn [prefixlen new_Ipv4Network].
  cbn [JS.le JS.cmp JS.sub JS.lift2 JS.Math_pow].
  replace (q <=? p) with false by (symmetry; apply Z.leb_gt; lia).
  replace (q - p <? 0) with false by (symmetry; apply Z.ltb_ge; lia).
  assert (0 < 2 ^ (q - p)) by (apply Z.pow_pos_nonneg; lia).
  erewrite split_loop_fuel_le;
    [reflexivity | apply Hfuel | rewrite split_loop_run by lia; reflexivity].
Qed.

Lemma hosts_loop_run (this : Ipv4Network) (l : Z) (k : nat) :
  integer (last this true) = Fin l ->
  forall (i : Z) (acc : list Ipv4Address),
    i + Z.of_nat k = Z.max i (l + 1) ->
    hosts_loop (S k) this (Fin i) acc
    = Some (acc ++ map (fun z => new_Ipv4Address (Fin z)) (Zseq i k)).
Proof.
  intros Hl. induction k as [|k IH]; intros i acc Hi.
  - rewrite hosts_loop_step, Hl. cbn [JS.le JS.cmp].
    replace (i <=? l) with false by (symmetry; apply Z.leb_gt; lia).
    rewrite app_nil_r. reflexivity.
  - rewrite hosts_loop_step, Hl. cbn [JS.le JS.cmp JS.add JS.lift2].
    replace (i <=? l) with true by (symmetry; apply Z.leb_le; lia).
    rewrite IH by lia. cbn [Zseq map]. rewrite <- app_assoc.
    reflexivity.
Qed.

Lemma hosts_loop_more_fuel (this : Ipv4Network) (fuel : nat) :
  forall i acc r,
    hosts_loop fuel this i acc = Some r ->
    hosts_loop (S fuel) this i acc = Some r.
Proof.
  induction fuel as [|fuel IH]; intros i acc r H; [discriminate|].
  cbn [hosts_loop] in *.
  destruct (JS.le i (integer (last this true))); [|assumption].
  apply IH. assumption.
Qed.

Lemma hosts_fuel_le (this : Ipv4Network) (r : list Ipv4Address)
    (fuel fuel' : nat) :
  (fuel <= fuel')%nat ->
  hosts fuel this = Some r -> hosts fuel' this = Some r.
Proof.
  unfold hosts. induction 1; [trivial|].
  intros H0. apply hosts_loop_more_fuel; auto.
Qed.

Lemma first_host_integer (n : Ipv4Network) :
  integer (first n true) = Fin (network_int n + 1).
Proof. reflexivity. Qed.

Lemma last_host_integer (n : Ipv4Network) :
  integer (last n true) = Fin (broadcast_int n - 1).
Proof. reflexivity. Qed.

(** What [hosts] returns: the addresses from [first(true)] up to
    [last(true)], none when the first exceeds the last. *)
Lemma hosts_value (n : Ipv4Network) (fuel : nat) :
  (Z.to_nat (broadcast_int n - network_int n - 1) < fuel)%nat ->
  hosts fuel n
  = Some (map (fun z => new_Ipv4Address (Fin z))
            (Zseq (network_int n + 1)
               (Z.to_nat (broadcast_int n - network_int n - 1)))).
Proof.
  intros Hfuel. eapply hosts_fuel_le; [apply Hfuel|].
  unfold hosts. rewrite first_host_integer.
  rewrite (hosts_loop_run n (broadcast_int n - 1)); [reflexivity| |].
  - apply last_host_integer.
  - lia.
Qed.

End Loops.


(** ** split: the guard *)

(** C7.  For integers p and q, [split(q)] on a /p network throws exactly
    when q <= p; it then throws before the loop is entered (no fuel is
    used), and otherwise returns an array.  10.47.0.0/17 split at 17
    throws. *)
Theorem split_throws_iff_not_longer (a : Ipv4Address) (p q : Z) :
  let n := new_Ipv4Network a (Fin p) in
  ((exists fuel message, split fuel n (Fin q) = Some (Throw message))
   <-> q <= p)
  /\ (q <= p ->
      split 0 n (Fin q)
      = Some (Throw "The requested prefix length must be larger than the supernet"))
  /\ (p < q -> exists fuel networks, split fuel n (Fin q) = Some (Ok networks))
  /\ split 0 net_10_47_0_0_17 (Fin 17)
     = Some (Throw "The requested prefix length must be larger than the supernet").
Proof.
  intros n.
  assert (Hthrow : q <= p ->
    split 0 n (Fin q)
    = Some (Throw "The requested prefix length must be larger than the supernet")).
  { intros H. unfold split, n. cbn [prefixlen new_Ipv4Network JS.le JS.cmp].
    replace (q <=? p) with true by (symmetry; apply Z.leb_le; lia).
    reflexivity. }
  assert (Hok : p < q ->
    forall fuel message, split fuel n (Fin q) <> Some (Throw message)).
  { intros H fuel message. unfold split, n.
    cbn [prefixlen new_Ipv4Network JS.le JS.cmp].
    replace (q <=? p) with false by (symmetry; apply Z.leb_gt; lia).
    destruct (split_loop _ _ _ _ _ _); simpl; discriminate. }
  repeat split.
  - intros (fuel & message & H).
    destruct (Z.le_gt_cases q p) as [Hle|Hgt]; [assumption|].
    exfalso. exact (Hok Hgt fuel message H).
  - intros H. exists 0%nat. eexists. apply Hthrow. assumption.
  - exact Hthrow.
  - intros H. exists (S (Z.to_nat (2 ^ (q - p)))). eexists.
    apply split_children; [assumption | lia].
Qed.

(** ** hosts *)

(** C10.  [hosts()] returns, for any address and prefix length: an array
    that stays the same for every larger fuel, that is empty when
    [first(true)] exceeds [last(true)], as it does for prefix lengths 31
    and 32, and whose addresses all lie between [first(true)] and
    [last(true)]. *)
Theorem hosts_within_host_range (a : Ipv4Address) (p : number) :
  let n := new_Ipv4Network a p in
  exists (fuel : nat) (l : list Ipv4Address),
    (forall fuel', (fuel <= fuel')%nat -> hosts fuel' n = Some l)
    /\ (JS.lt (integer (last n true)) (integer (first n true)) = true ->
        l = [])
    /\ (forall h, In h l ->
          JS.le (integer (first n true)) (integer h) = true
          /\ JS.le (integer h) (integer (last n true)) = true)
    /\ (p = Fin 31 \/ p = Fin 32 ->
        JS.lt (integer (last n true)) (integer (first n true)) = true).
Proof.
  intros n.
  set (len := Z.to_nat (broadcast_int n - network_int n - 1)).
  exists (S len).
  exists (map (fun z => new_Ipv4Address (Fin z)) (Zseq (network_int n + 1) len)).
  rewrite first_host_integer, last_host_integer.
  cbn [JS.lt JS.le JS.cmp]. repeat split.
  - intros fuel' Hf. apply hosts_value. fold len. lia.
  - rewrite Z.ltb_lt. intros H.
    replace len with 0%nat by (unfold len; lia). reflexivity.
  - apply in_map_iff in H. destruct H as (z & <- & Hz).
    apply Zseq_In in Hz. cbn [integer _int_repr JS.le JS.cmp].
    apply Z.leb_le. lia.
  - apply in_map_iff in H. destruct H as (z & <- & Hz).
    apply Zseq_In in Hz. cbn [integer _int_repr JS.le JS.cmp].
    apply Z.leb_le. unfold len in Hz. lia.
  - intros [-> | ->]; apply Z.ltb_lt; unfold n, broadcast_int, network_int.
    + generalize (base_int (new_Ipv4Network a (Fin 31))). intros b.
      change (mask_int (new_Ipv4Network a (Fin 31))) with (-2).
      change (Z.lnot (-2)) with 1. lia.
    + change (mask_int (new_Ipv4Network a (Fin 32))) with 0.
      rewrite Z.land_0_r. change (Z.lnot 0) with (-1). lia.
Qed.


(** ** Dotted-decimal text *)

Section DottedDecimal.

Lemma split_no_dot (s : string) :
  no_dot s = true -> Str.split "." s = [s].
Proof.
  induction s as [|c s IH]; simpl; [reflexivity|].
  intros H. apply andb_true_iff in H. destruct H as [Hc Hs].
  apply negb_true_iff in Hc. rewrite Hc, (IH Hs). reflexivity.
Qed.

Lemma split_app_dot (s rest : string) :
  no_dot s = true ->
  Str.split "." (s ++ "." ++ rest) = s :: Str.split "." rest.
Proof.
  induction s as [|c s IH]; simpl in *; [reflexivity|].
  intros H. apply andb_true_iff in H. destruct H as [Hc Hs].
  apply negb_true_iff in Hc. rewrite Hc, (IH Hs). reflexivity.
Qed.

Lemma octet_text (o : Z) :
  0 <= o < 256 -> octet_text_ok o = true.
Proof.
  intros H. assert (H' : 0 <= o < Z.of_nat 256) by lia. clear H.
  revert o H'. each_below 256%nat.
Qed.

Lemma octet_parse (o : Z) :
  0 <= o < 256 -> Str.parseInt (JS.Number_toString (Fin o)) = Fin o.
Proof.
  intros H. apply octet_text in H. unfold octet_text_ok in H.
  destruct (Str.parseInt _) as [z|]; [|discriminate].
  apply andb_true_iff in H. destruct H as [H _].
  apply Z.eqb_eq in H. congruence.
Qed.

Lemma octet_no_dot (o : Z) :
  0 <= o < 256 -> no_dot (JS.Number_toString (Fin o)) = true.
Proof.
  intros H. apply octet_text in H. unfold octet_text_ok in H.
  destruct (Str.parseInt _) as [z|]; [|discriminate].
  apply andb_true_iff in H. tauto.
Qed.

(** The octet [(value >> s) & 0xFF]. *)
Lemma octet_of_shift (n : number) (s : Z) :
  0 <= s < 32 ->
  JS.band (JS.sar n (Fin s)) (Fin 255)
  = Fin ((JS.ToInt32 n / 2 ^ s) mod 256).
Proof.
  intros Hs. unfold JS.band, JS.sar, JS.shift_count.
  pose proof (ToInt32_range n) as Hw.
  replace (JS.ToUint32 (Fin s) mod 32) with s
    by (unfold JS.ToUint32; rewrite (Z.mod_small s 4294967296) by lia;
        rewrite Z.mod_small by lia; reflexivity).
  rewrite Z.shiftr_div_pow2 by lia.
  assert (0 < 2 ^ s) by (apply Z.pow_pos_nonneg; lia).
  assert (-2147483648 <= JS.ToInt32 n / 2 ^ s < 2147483648).
  { split.
    - apply Z.div_le_lower_bound; nia.
    - apply Z.div_lt_upper_bound; nia. }
  rewrite ToInt32_small by assumption.
  change (JS.ToInt32 (Fin 255)) with (Z.ones 8).
  rewrite Z.land_ones by lia. reflexivity.
Qed.

Lemma octet_low (n : number) :
  JS.band n (Fin 255) = Fin (JS.ToInt32 n mod 256).
Proof.
  unfold JS.band. change (JS.ToInt32 (Fin 255)) with (Z.ones 8).
  rewrite Z.land_ones by lia. reflexivity.
Qed.

(** The four octets of a 32-bit value, most significant first, weigh
    back to the unsigned value. *)
Lemma octets_sum (v : Z) :
  0 <= v < 4294967296 ->
  let w := JS.ToInt32 (Fin v) in
  (w / 2 ^ 24) mod 256 * 16777216 + (w / 2 ^ 16) mod 256 * 65536
  + (w / 2 ^ 8) mod 256 * 256 + w mod 256 = v.
Proof.
  intros Hv w.
  assert (Hw : w = v \/ w = v - 4294967296).
  { destruct (ToInt32_ToUint32 (Fin v)) as [E|E]; fold w in E;
      unfold JS.ToUint32 in E; rewrite Z.mod_small in E by lia; auto. }
  change (2 ^ 24) with 16777216. change (2 ^ 16) with 65536.
  change (2 ^ 8) with 256.
  clearbody w. Z.div_mod_to_equations. lia.
Qed.

End DottedDecimal.

(** C8.  An address holding an integer in [0, 2^32 - 1] prints as text
    that [fromString] parses back to an address holding the same
    integer. *)
Theorem fromString_toString_roundtrip (v : Z) :
  0 <= v < 4294967296 ->
  Ipv4Address_fromString (Ipv4Address_toString (new_Ipv4Address (Fin v)))
  = Ok (new_Ipv4Address (Fin v)).
Proof.
  intros Hv. unfold Ipv4Address_toString, _toIpStr. cbn [_int_repr].
  rewrite !octet_of_shift, octet_low by lia.
  pose proof (octets_sum v Hv) as Hsum. cbv zeta in Hsum.
  set (w := JS.ToInt32 (Fin v)) in *.
  set (o0 := (w / 2 ^ 24) mod 256) in *.
  set (o1 := (w / 2 ^ 16) mod 256) in *.
  set (o2 := (w / 2 ^ 8) mod 256) in *.
  set (o3 := w mod 256) in *.
  assert (H0 : 0 <= o0 < 256) by (apply Z.mod_pos_bound; lia).
  assert (H1 : 0 <= o1 < 256) by (apply Z.mod_pos_bound; lia).
  assert (H2 : 0 <= o2 < 256) by (apply Z.mod_pos_bound; lia).
  assert (H3 : 0 <= o3 < 256) by (apply Z.mod_pos_bound; lia).
  unfold Ipv4Address_fromString. cbn [Str.join].
  rewrite !split_app_dot by (apply octet_no_dot; assumption).
  rewrite split_no_dot by (apply octet_no_dot; assumption).
  clearbody o0 o1 o2 o3. clear w.
  unfold Arr.map, Arr.length. cbn [Arr.map_from List.length Z.of_nat].
  rewrite !octet_parse by assumption.
  change (Z.pos (Pos.of_succ_nat 3)) with 4.
  cbn.
  do 3 f_equal. lia.
Qed.

Lemma fromString_toString_roundtrip_witness :
  Ipv4Address_fromString
    (Ipv4Address_toString (new_Ipv4Address (Fin 3232235777)))
  = Ok (new_Ipv4Address (Fin 3232235777)).
Proof. apply fromString_toString_roundtrip. lia. Defined.


(** ** split: the children *)

Lemma ToInt32_unique (z r : Z) :
  -2147483648 <= r < 2147483648 ->
  (z - r) mod 4294967296 = 0 ->
  JS.ToInt32 (Fin z) = r.
Proof.
  intros Hr Hz. unfold JS.ToInt32, JS.ToUint32.
  destruct (Z.leb_spec 2147483648 (z mod 4294967296)) as [Hc|Hc];
    revert Hc Hz; Z.div_mod_to_equations; lia.
Qed.

Lemma shift_count_small (s : Z) : 0 <= s < 32 -> JS.shift_count (Fin s) = s.
Proof.
  intros Hs. unfold JS.shift_count, JS.ToUint32.
  rewrite (Z.mod_small s 4294967296) by lia. apply Z.mod_small. lia.
Qed.

Section Split.

Variable a : Ipv4Address.
Variables p q : Z.
Hypothesis Hp : 1 <= p.
Hypothesis Hpq : p < q.
Hypothesis Hq : q <= 31.

Let n : Ipv4Network := new_Ipv4Network a (Fin p).

(** The base address and the network address have the same top q bits:
    the base has no bit set between the two prefix lengths. *)
Hypothesis Hbase :
  JS.shr (integer a) (JS.sub IPV4_MAX_PREFIXLEN (Fin q))
  = JS.shr (integer (network n)) (JS.sub IPV4_MAX_PREFIXLEN (Fin q)).

Let A : Z := network_int n.
Let S : Z := 2 ^ (32 - q).
Let D : Z := 2 ^ (q - p).

Lemma split_powers :
  0 < S /\ 0 < D /\ 2 ^ (32 - p) = S * D
  /\ 2147483648 = S * D * 2 ^ (p - 1) /\ 0 < 2 ^ (p - 1)
  /\ 4294967296 = 2 * (S * D * 2 ^ (p - 1)).
Proof.
  unfold S, D.
  assert (H1 : 0 < 2 ^ (32 - q)) by (apply Z.pow_pos_nonneg; lia).
  assert (H2 : 0 < 2 ^ (q - p)) by (apply Z.pow_pos_nonneg; lia).
  assert (H3 : 0 < 2 ^ (p - 1)) by (apply Z.pow_pos_nonneg; lia).
  assert (H4 : 2 ^ (32 - p) = 2 ^ (32 - q) * 2 ^ (q - p)).
  { rewrite <- Z.pow_add_r by lia. f_equal. lia. }
  assert (H5 : 2147483648 = 2 ^ (32 - p) * 2 ^ (p - 1)).
  { rewrite <- Z.pow_add_r by lia. replace (32 - p + (p - 1)) with 31 by lia.
    reflexivity. }
  rewrite <- H4. repeat split; try assumption. lia.
Qed.

Lemma parent_mask : mask_int n = - 2 ^ (32 - p).
Proof.
  unfold n. rewrite mask_int_value by lia.
  replace (p =? 0) with false by (symmetry; apply Z.eqb_neq; lia).
  replace (p =? 32) with false by (symmetry; apply Z.eqb_neq; lia).
  reflexivity.
Qed.

Lemma child_mask (i : Z) : mask_int (child n (Fin q) i) = - S.
Proof.
  unfold child. rewrite mask_int_value by lia.
  replace (q =? 0) with false by (symmetry; apply Z.eqb_neq; lia).
  replace (q =? 32) with false by (symmetry; apply Z.eqb_neq; lia).
  reflexivity.
Qed.

(** The network address is a multiple of the size of the network. *)
Lemma network_multiple :
  exists t, A = S * D * t /\ - 2 ^ (p - 1) <= t < 2 ^ (p - 1).
Proof.
  destruct split_powers as (HS & HD & Hk & H31 & HP & H32).
  pose proof (ToInt32_range (integer (address n))) as HB.
  fold (base_int n) in HB.
  exists (base_int n / (S * D)).
  assert (HA : A = S * D * (base_int n / (S * D))).
  { unfold A, network_int. rewrite parent_mask, land_neg_pow2 by lia.
    rewrite Hk. reflexivity. }
  split; [exact HA|].
  assert (H0 : 0 < S * D) by nia.
  pose proof (Z.mul_div_le (base_int n) (S * D) H0).
  pose proof (Z.mul_succ_div_gt (base_int n) (S * D) H0).
  set (t := base_int n / (S * D)) in *. clearbody t. nia.
Qed.

Lemma child_address_int (i : Z) :
  0 <= i < D ->
  integer (address (child n (Fin q) i)) = Fin (A + i * S).
Proof.
  intros Hi.
  destruct split_powers as (HS & HD & Hk & H31 & HP & H32).
  destruct network_multiple as (t & HA & Ht).
  assert (HS2 : 2 <= S).
  { unfold S. change 2 with (2 ^ 1) at 1. apply Z.pow_le_mono_r; lia. }
  unfold child. cbn [address new_Ipv4Network].
  change (integer {| _int_repr := ?x |}) with x.
  pose proof Hbase as Hb.
  change (integer a) with (integer (address n)) in Hb.
  rewrite Hb, network_integer. fold A. clear Hb.
  change (JS.sub IPV4_MAX_PREFIXLEN (Fin q)) with (Fin (32 - q)).
  unfold JS.shl, JS.shr, JS.add, JS.lift2.
  rewrite shift_count_small by lia.
  rewrite Z.shiftr_div_pow2, Z.shiftl_mul_pow2 by lia. fold S.
  pose proof (ToUint32_range (Fin A)) as HU.
  assert (HAr : -2147483648 <= A < 2147483648).
  { assert (D * (t + 1) <= D * 2 ^ (p - 1)) by nia. nia. }
  assert (HUA : exists c, JS.ToUint32 (Fin A)
                          = A + c * 4294967296 /\ 0 <= c <= 1).
  { destruct (ToInt32_ToUint32 (Fin A)) as [E|E];
      rewrite (ToInt32_small A HAr) in E; [exists 0 | exists 1]; lia. }
  destruct HUA as (c & HUA & Hc). rewrite HUA in *.
  set (P := 2 ^ (p - 1)) in *. clearbody P.
  assert (HAS : A + c * 4294967296 = (D * t + c * (2 * D * P)) * S) by nia.
  rewrite HAS, Z.div_mul by lia.
  assert (Hsmall : -2147483648 <= D * t + c * (2 * D * P) + i < 2147483648).
  { assert (0 <= D * t + c * (2 * D * P)) by nia.
    assert (t + c * (2 * P) < 2 * P) by nia.
    assert (D * (t + c * (2 * P)) + D <= D * (2 * P)) by nia.
    assert (D * (2 * P) <= S * (D * P)) by nia.
    lia. }
  rewrite (ToInt32_small _ Hsmall). f_equal.
  apply ToInt32_unique.
  - assert (D * (t + 1) <= D * P) by nia.
    assert (0 <= i * S) by nia.
    assert (i * S < D * S) by nia. nia.
  - replace ((D * t + c * (2 * D * P) + i) * S - (A + i * S))
      with (c * 4294967296) by nia.
    apply Z.mod_mul. lia.
Qed.

Lemma parent_range :
  network_int n = A /\ broadcast_int n = A + S * D - 1.
Proof.
  destruct split_powers as (HS & HD & Hk & H31 & HP & H32).
  destruct network_multiple as (t & HA & Ht).
  split; [reflexivity|].
  unfold broadcast_int. fold A. rewrite parent_mask, lnot_neg_pow2, Hk. lia.
Qed.

Lemma child_range (i : Z) :
  0 <= i < D ->
  network_int (child n (Fin q) i) = A + i * S
  /\ broadcast_int (child n (Fin q) i) = A + i * S + S - 1.
Proof.
  intros Hi.
  destruct split_powers as (HS & HD & Hk & H31 & HP & H32).
  destruct network_multiple as (t & HA & Ht).
  assert (Hcb : base_int (child n (Fin q) i) = A + i * S).
  { unfold base_int. rewrite (child_address_int i Hi).
    apply ToInt32_small.
    assert (D * (t + 1) <= D * 2 ^ (p - 1)) by nia.
    assert (0 <= i * S) by nia.
    assert (i * S < D * S) by nia. nia. }
  assert (Hnet : network_int (child n (Fin q) i) = A + i * S).
  { unfold network_int. rewrite Hcb, child_mask. unfold S at 2.
    rewrite land_neg_pow2 by lia. fold S.
    replace (A + i * S) with ((D * t + i) * S) by nia.
    rewrite Z.div_mul by lia. lia. }
  split; [exact Hnet|].
  unfold broadcast_int. rewrite Hnet, child_mask. unfold S.
  rewrite lnot_neg_pow2. lia.
Qed.

Lemma nth_error_children (k : nat) (c : Ipv4Network) :
  nth_error (map (child n (Fin q)) (Zseq 0 (Z.to_nat D))) k = Some c ->
  c = child n (Fin q) (Z.of_nat k) /\ 0 <= Z.of_nat k < D.
Proof.
  intros H. assert (Hk : (k < Z.to_nat D)%nat).
  { rewrite <- (Zseq_length (Z.to_nat D) 0), <- (length_map (child n (Fin q))).
    apply nth_error_Some. congruence. }
  rewrite (nth_error_nth' _ (child n (Fin q) 0)) in H
    by (rewrite length_map, Zseq_length; exact Hk).
  change (child n (Fin q) 0) with (child n (Fin q) (0 : Z)) in H.
  rewrite (map_nth (child n (Fin q))), Zseq_nth in H by exact Hk.
  injection H as <-. split; [reflexivity | lia].
Qed.

(** C4, amended.  For a /p network and 1 <= p < q <= 31, when the base
    address has the top q bits of the network address (as it does when it
    is the network address), [split(q)] returns 2^(q-p) networks of prefix
    length q; the i-th has the base address
    [((base >>> (32-q)) + i) << (32-q)]; base addresses increase, each
    child ends before the next one starts, and an integer lies between
    [network()] and [broadcast()] of the parent exactly when it does so for
    one of the children. *)
Theorem split_partitions_network :
  exists (fuel : nat) (networks : list Ipv4Network),
    (forall fuel', (fuel <= fuel')%nat ->
       split fuel' n (Fin q) = Some (Ok networks))
    /\ Z.of_nat (List.length networks) = 2 ^ (q - p)
    /\ (forall i, 0 <= i < 2 ^ (q - p) ->
          exists c,
            nth_error networks (Z.to_nat i) = Some c
            /\ prefixlen c = Fin q
            /\ integer (address c)
               = JS.shl
                   (JS.add
                      (JS.shr (integer a) (JS.sub IPV4_MAX_PREFIXLEN (Fin q)))
                      (Fin i))
                   (JS.sub IPV4_MAX_PREFIXLEN (Fin q)))
    /\ (forall (i j : nat) (c d : Ipv4Network),
          (i < j)%nat ->
          nth_error networks i = Some c -> nth_error networks j = Some d ->
          JS.lt (integer (address c)) (integer (address d)) = true
          /\ JS.lt (integer (broadcast c)) (integer (network d)) = true)
    /\ (forall x, in_range n x <-> exists c, In c networks /\ in_range c x).
Proof.
  destruct split_powers as (HS & HD & Hk & H31 & HP & H32).
  destruct parent_range as (Hnet & Hbc).
  exists (Datatypes.S (Z.to_nat D)).
  exists (map (child n (Fin q)) (Zseq 0 (Z.to_nat D))).
  split; [|split; [|split; [|split]]].
  - intros fuel' Hf. unfold n. apply split_children; [lia|]. fold D. lia.
  - rewrite length_map, Zseq_length. fold D. lia.
  - fold D. intros i Hi. exists (child n (Fin q) i).
    split; [|split; reflexivity].
    rewrite nth_error_map.
    rewrite (nth_error_nth' _ 0) by (rewrite Zseq_length; lia).
    rewrite Zseq_nth by lia. simpl. do 2 f_equal. lia.
  - intros i j c d Hij Hc Hd.
    apply nth_error_children in Hc, Hd.
    destruct Hc as (-> & Hi). destruct Hd as (-> & Hj).
    rewrite !child_address_int by assumption.
    rewrite broadcast_integer, network_integer.
    destruct (child_range (Z.of_nat i) Hi) as (_ & ->).
    destruct (child_range (Z.of_nat j) Hj) as (-> & _).
    cbn [JS.lt JS.cmp]. rewrite !Z.ltb_lt. split; nia.
  - intros x. rewrite in_range_iff, Hnet, Hbc. split.
    + intros Hx. set (i := (x - A) / S).
      assert (Hi : 0 <= i < D).
      { unfold i. split.
        - apply Z.div_pos; lia.
        - apply Z.div_lt_upper_bound; nia. }
      exists (child n (Fin q) i). split.
      * apply in_map, Zseq_In. lia.
      * rewrite in_range_iff. destruct (child_range i Hi) as (-> & ->).
        pose proof (Z.mul_div_le (x - A) S HS).
        pose proof (Z.mul_succ_div_gt (x - A) S HS).
        fold i in H, H0. nia.
    + intros (c & Hin & Hx). apply in_map_iff in Hin.
      destruct Hin as (i & <- & Hi). apply Zseq_In in Hi.
      assert (Hi' : 0 <= i < D) by lia.
      rewrite in_range_iff in Hx.
      destruct (child_range i Hi') as (E1 & E2). rewrite E1, E2 in Hx.
      nia.
Qed.

End Split.

Lemma split_partitions_network_witness :
  exists (fuel : nat) (networks : list Ipv4Network),
    (forall fuel', (fuel <= fuel')%nat ->
       split fuel' net_10_47_0_5_16 (Fin 18) = Some (Ok networks))
    /\ Z.of_nat (List.length networks) = 2 ^ (18 - 16)
    /\ (forall i, 0 <= i < 2 ^ (18 - 16) ->
          exists c,
            nth_error networks (Z.to_nat i) = Some c
            /\ prefixlen c = Fin 18
            /\ integer (address c)
               = JS.shl
                   (JS.add
                      (JS.shr (integer (ip 10 47 0 5))
                         (JS.sub IPV4_MAX_PREFIXLEN (Fin 18)))
                      (Fin i))
                   (JS.sub IPV4_MAX_PREFIXLEN (Fin 18)))
    /\ (forall (i j : nat) (c d : Ipv4Network),
          (i < j)%nat ->
          nth_error networks i = Some c -> nth_error networks j = Some d ->
          JS.lt (integer (address c)) (integer (address d)) = true
          /\ JS.lt (integer (broadcast c)) (integer (network d)) = true)
    /\ (forall x,
          in_range net_10_47_0_5_16 x
          <-> exists c, In c networks /\ in_range c x).
Proof.
  apply (split_partitions_network (ip 10 47 0 5) 16 18);
    [lia | lia | lia | reflexivity].
Defined.

(** C4, as stated: 10.47.64.0/16 split at 18 gives the four networks
    10.47.64.0/18 to 10.48.0.0/18; the network address 10.47.0.0 of the
    parent lies in its range and in the range of no child. *)
Lemma split_unaligned_base_leaves_gap :
  split 5 net_10_47_64_0_16 (Fin 18)
  = Some (Ok [ new_Ipv4Network (ip 10 47 64 0) (Fin 18);
               new_Ipv4Network (ip 10 47 128 0) (Fin 18);
               new_Ipv4Network (ip 10 47 192 0) (Fin 18);
               new_Ipv4Network (ip 10 48 0 0) (Fin 18) ])
  /\ in_range net_10_47_64_0_16 170852352
  /\ ~ in_range (new_Ipv4Network (ip 10 47 64 0) (Fin 18)) 170852352
  /\ ~ in_range (new_Ipv4Network (ip 10 47 128 0) (Fin 18)) 170852352
  /\ ~ in_range (new_Ipv4Network (ip 10 47 192 0) (Fin 18)) 170852352
  /\ ~ in_range (new_Ipv4Network (ip 10 48 0 0) (Fin 18)) 170852352.
Proof.
  split; [reflexivity|]. split; [split; reflexivity|].
  repeat split; intros [H _]; vm_compute in H; discriminate.
Qed.

(** Outside the bounds of the amended C4.  A /0 network has the range
    [0, -1] and its two /1 children come with decreasing base addresses;
    a /32 child has the netmask 0, hence the range [0, -1] as well. *)
Lemma split_prefix_0_bases_decrease :
  split 3 (new_Ipv4Network (ip 0 0 0 0) (Fin 0)) (Fin 1)
  = Some (Ok [ new_Ipv4Network (new_Ipv4Address (Fin 0)) (Fin 1);
               new_Ipv4Network (new_Ipv4Address (Fin (-2147483648))) (Fin 1) ])
  /\ integer (network (new_Ipv4Network (ip 0 0 0 0) (Fin 0))) = Fin 0
  /\ integer (broadcast (new_Ipv4Network (ip 0 0 0 0) (Fin 0))) = Fin (-1).
Proof. repeat split. Qed.

Lemma split_to_32_children_have_mask_0 :
  split 3 (new_Ipv4Network (ip 10 0 0 0) (Fin 31)) (Fin 32)
  = Some (Ok [ new_Ipv4Network (ip 10 0 0 0) (Fin 32);
               new_Ipv4Network (ip 10 0 0 1) (Fin 32) ])
  /\ integer (network (new_Ipv4Network (ip 10 0 0 1) (Fin 32))) = Fin 0
  /\ integer (broadcast (new_Ipv4Network (ip 10 0 0 1) (Fin 32))) = Fin (-1).
Proof. repeat split. Qed.


(** * Further properties of the library *)

(** ** The netmask, the network address and the broadcast address *)

(** X1.  For a prefix length p from 0 to 31, bit k of the stored netmask
    (read as an unsigned 32-bit value) is set exactly when k is one of the
    p highest positions. *)
Theorem netmask_bit_set_iff_leading (a : Ipv4Address) (p k : Z) :
  0 <= p <= 31 -> 0 <= k < 32 ->
  Z.testbit (JS.ToUint32 (integer (netmask (new_Ipv4Network a (Fin p))))) k
  = (32 - p <=? k).
Proof.
  intros Hp Hk. rewrite netmask_bits by assumption.
  assert (E : 2 ^ 32 - 2 ^ (32 - p) = Z.shiftl (Z.ones p) (32 - p)).
  { rewrite Z.shiftl_mul_pow2, Z.ones_equiv by lia.
    replace (2 ^ 32) with (2 ^ p * 2 ^ (32 - p))
      by (rewrite <- Z.pow_add_r by lia; f_equal; lia).
    lia. }
  rewrite E, Z.shiftl_spec by lia.
  destruct (Z.leb_spec (32 - p) k) as [H|H].
  - apply Z.ones_spec_low. lia.
  - apply Z.testbit_neg_r. lia.
Qed.

Lemma netmask_bit_set_iff_leading_witness :
  Z.testbit (JS.ToUint32 (integer (netmask net_10_47_0_0_16))) 16
  = (32 - 16 <=? 16).
Proof.
  apply (netmask_bit_set_iff_leading (ip 10 47 0 0) 16 16); lia.
Defined.

Section Shape.

Variable a : Ipv4Address.
Variable p : Z.
Hypothesis Hp : 0 <= p <= 32.

Let n : Ipv4Network := new_Ipv4Network a (Fin p).

(** The two cases of a netmask: 0 (prefix lengths 0 and 32), where the
    network address is 0 and the broadcast address -1, and -2^k. *)
Lemma network_shape :
  (mask_int n = 0 /\ (p = 0 \/ p = 32)
   /\ network_int n = 0 /\ broadcast_int n = -1)
  \/ (mask_int n = - 2 ^ (32 - p) /\ 1 <= p <= 31
      /\ network_int n = 2 ^ (32 - p) * (base_int n / 2 ^ (32 - p))
      /\ broadcast_int n = network_int n + 2 ^ (32 - p) - 1
      /\ -2147483648 <= network_int n
      /\ broadcast_int n < 2147483648).
Proof.
  assert (Hm : mask_int n
               = if (p =? 0) || (p =? 32) then 0 else - 2 ^ (32 - p))
    by (apply mask_int_value; assumption).
  destruct ((p =? 0) || (p =? 32)) eqn:E.
  - left. apply orb_true_iff in E. rewrite !Z.eqb_eq in E.
    unfold broadcast_int, network_int. rewrite Hm, Z.land_0_r.
    repeat split; auto.
  - right. apply orb_false_iff in E. rewrite !Z.eqb_neq in E.
    assert (Hp' : 1 <= p <= 31) by lia.
    assert (Hnet : network_int n
                   = 2 ^ (32 - p) * (base_int n / 2 ^ (32 - p))).
    { unfold network_int. rewrite Hm. apply land_neg_pow2. lia. }
    assert (Hbc : broadcast_int n = network_int n + 2 ^ (32 - p) - 1).
    { unfold broadcast_int. rewrite Hm, lnot_neg_pow2. lia. }
    assert (H0 : 0 < 2 ^ (32 - p)) by (apply Z.pow_pos_nonneg; lia).
    assert (H31 : 2147483648 = 2 ^ (32 - p) * 2 ^ (p - 1)).
    { rewrite <- Z.pow_add_r by lia.
      replace (32 - p + (p - 1)) with 31 by lia. reflexivity. }
    pose proof (ToInt32_range (integer (address n))) as HB.
    fold (base_int n) in HB.
    pose proof (Z.mul_div_le (base_int n) _ H0).
    pose proof (Z.mul_succ_div_gt (base_int n) _ H0).
    set (K := 2 ^ (32 - p)) in *. set (t := base_int n / K) in *.
    set (P := 2 ^ (p - 1)) in *.
    assert (HP : 0 < P) by (apply Z.pow_pos_nonneg; lia).
    assert (Ht : - P <= t < P) by (clearbody K t P; nia).
    repeat split; try assumption; try lia.
    + rewrite Hnet. clearbody K t P. nia.
    + rewrite Hbc, Hnet. clearbody K t P. nia.
Qed.

Lemma network_int_range : -2147483648 <= network_int n < 2147483648.
Proof.
  destruct network_shape as [(_ & _ & H1 & H2)|(_ & _ & _ & H2 & H3 & H4)].
  - rewrite H1. lia.
  - assert (0 < 2 ^ (32 - p)) by (apply Z.pow_pos_nonneg; lia). lia.
Qed.

Lemma broadcast_int_range : -2147483648 <= broadcast_int n < 2147483648.
Proof.
  destruct network_shape as [(_ & _ & H1 & H2)|(_ & _ & _ & H2 & H3 & H4)].
  - rewrite H2. lia.
  - assert (0 < 2 ^ (32 - p)) by (apply Z.pow_pos_nonneg; lia). lia.
Qed.

(** X2.  For prefix lengths 0 to 32 and any base address: the network
    address has no host bit set, the broadcast address has all host bits
    set, and masking the broadcast address gives the network address. *)
Theorem network_and_broadcast_host_bits :
  JS.band (integer (network n)) (JS.bnot (_netmask n)) = Fin 0
  /\ JS.band (integer (broadcast n)) (JS.bnot (_netmask n))
     = JS.bnot (_netmask n)
  /\ JS.band (integer (broadcast n)) (_netmask n) = integer (network n).
Proof.
  rewrite network_integer, broadcast_integer.
  unfold JS.band, JS.bnot. rewrite ToInt32_lnot.
  rewrite (ToInt32_small _ network_int_range).
  rewrite (ToInt32_small _ broadcast_int_range).
  fold (mask_int n).
  destruct network_shape
    as [(Hm & _ & H1 & H2)|(Hm & Hp' & H1 & H2 & H3 & H4)].
  - rewrite Hm, H1, H2. repeat split.
  - assert (H0 : 0 < 2 ^ (32 - p)) by (apply Z.pow_pos_nonneg; lia).
    rewrite Hm, lnot_neg_pow2.
    replace (2 ^ (32 - p) - 1) with (Z.ones (32 - p))
      by (rewrite Z.ones_equiv; lia).
    rewrite !Z.land_ones by lia. rewrite land_neg_pow2 by lia.
    rewrite H2, H1. rewrite Z.ones_equiv.
    set (t := base_int n / 2 ^ (32 - p)). set (K := 2 ^ (32 - p)) in *.
    repeat split; f_equal.
    + rewrite Z.mul_comm. apply Z.mod_mul. lia.
    + replace (K * t + K - 1) with (K - 1 + t * K) by lia.
      rewrite Z.mod_add by lia. apply Z.mod_small. lia.
    + replace (K * t + K - 1) with (K - 1 + t * K) by lia.
      rewrite Z.div_add by lia. rewrite Z.div_small by lia. lia.
Qed.

(** X3.  Rebuilding a network from its own network address and prefix
    length (0 to 32) changes neither [network()] nor [broadcast()]. *)
Theorem network_of_network_address :
  let n' := new_Ipv4Network (network n) (Fin p) in
  network n' = network n /\ broadcast n' = broadcast n.
Proof.
  intros n'.
  assert (Hmask : mask_int n' = mask_int n) by reflexivity.
  assert (Hbase : base_int n' = network_int n).
  { unfold base_int, n'. cbn [address new_Ipv4Network].
    rewrite network_integer. apply ToInt32_small, network_int_range. }
  assert (Hnet : network_int n' = network_int n).
  { unfold network_int at 1. rewrite Hbase, Hmask. unfold network_int.
    rewrite <- Z.land_assoc, Z.land_diag. reflexivity. }
  assert (Hbc : broadcast_int n' = broadcast_int n).
  { unfold broadcast_int. rewrite Hnet, Hmask. reflexivity. }
  pose proof (network_integer n') as E1. pose proof (network_integer n) as E2.
  pose proof (broadcast_integer n') as E3.
  pose proof (broadcast_integer n) as E4.
  rewrite Hnet in E1. rewrite Hbc in E3.
  destruct (network n'), (network n), (broadcast n'), (broadcast n).
  unfold integer in *. cbn [_int_repr] in *. split; congruence.
Qed.

End Shape.

Lemma network_and_broadcast_host_bits_witness :
  JS.band (integer (network net_192_168_1_0_24))
    (JS.bnot (_netmask net_192_168_1_0_24)) = Fin 0
  /\ JS.band (integer (broadcast net_192_168_1_0_24))
       (JS.bnot (_netmask net_192_168_1_0_24))
     = JS.bnot (_netmask net_192_168_1_0_24)
  /\ JS.band (integer (broadcast net_192_168_1_0_24))
       (_netmask net_192_168_1_0_24)
     = integer (network net_192_168_1_0_24).
Proof.
  apply (network_and_broadcast_host_bits (ip 192 168 1 0) 24). lia.
Defined.

Lemma network_of_network_address_witness :
  network (new_Ipv4Network (network net_10_0_0_5_24) (Fin 24))
  = network net_10_0_0_5_24
  /\ broadcast (new_Ipv4Network (network net_10_0_0_5_24) (Fin 24))
     = broadcast net_10_0_0_5_24.
Proof.
  apply (network_of_network_address (ip 10 0 0 5) 24). lia.
Defined.

(** For prefix lengths 1 to 31 the signed test of [overlaps] decides
    whether the address ranges intersect: each range lies on one side of
    2^31. *)
Lemma overlaps_iff_address_ranges_intersect (a b : Ipv4Address) (pa pb : Z) :
  1 <= pa <= 31 -> 1 <= pb <= 31 ->
  let A := new_Ipv4Network a (Fin pa) in
  let B := new_Ipv4Network b (Fin pb) in
  overlaps A B = true <-> exists x, address_range A x /\ address_range B x.
Proof.
  intros Ha Hb A B. rewrite overlaps_iff. unfold address_range.
  rewrite !network_integer, !broadcast_integer.
  assert (Ha' : 0 <= pa <= 32) by lia. assert (Hb' : 0 <= pb <= 32) by lia.
  destruct (network_shape a pa Ha')
    as [(_ & Hc & _)|(_ & _ & _ & A2 & A3 & A4)]; [lia|].
  destruct (network_shape b pb Hb')
    as [(_ & Hc & _)|(_ & _ & _ & B2 & B3 & B4)]; [lia|].
  destruct (range_shape a pa Ha') as [[A5 A6]|[A5 A6]];
    [fold A in A5, A6, A2; assert (0 < 2 ^ (32 - pa))
       by (apply Z.pow_pos_nonneg; lia); lia|].
  destruct (range_shape b pb Hb') as [[B5 B6]|[B5 B6]];
    [fold B in B5, B6, B2; assert (0 < 2 ^ (32 - pb))
       by (apply Z.pow_pos_nonneg; lia); lia|].
  fold A in A2, A3, A4, A5, A6. fold B in B2, B3, B4, B5, B6.
  clear A2 B2.
  rewrite !ToUint32_of_int32 by lia.
  destruct (Z.ltb_spec (network_int A) 0), (Z.ltb_spec (broadcast_int A) 0),
    (Z.ltb_spec (network_int B) 0), (Z.ltb_spec (broadcast_int B) 0);
    try lia;
    (split;
     [ intros [H3 H4];
       first [ exists (Z.max (network_int A) (network_int B)); lia
             | exists (Z.max (network_int A) (network_int B) + 4294967296); lia
             | lia ]
     | intros [x Hx]; lia ]).
Qed.

(** X4.  For prefix lengths 1 to 31 the broadcast address is
    2^(32-p) - 1 above the network address, and the base address, read as
    a signed 32-bit integer, lies between the two. *)
Theorem network_size_and_base_in_range (a : Ipv4Address) (p : Z) :
  1 <= p <= 31 ->
  let n := new_Ipv4Network a (Fin p) in
  JS.sub (integer (broadcast n)) (integer (network n))
  = Fin (2 ^ (32 - p) - 1)
  /\ in_range n (JS.ToInt32 (integer a)).
Proof.
  intros Hp n. rewrite in_range_iff, network_integer, broadcast_integer.
  assert (Hp' : 0 <= p <= 32) by lia.
  destruct (network_shape a p Hp')
    as [(_ & Hc & _)|(Hm & _ & H1 & H2 & H3 & H4)]; [lia|].
  fold n in H1, H2. cbn [JS.sub JS.lift2]. split; [f_equal; lia|].
  change (JS.ToInt32 (integer a)) with (base_int n).
  assert (H0 : 0 < 2 ^ (32 - p)) by (apply Z.pow_pos_nonneg; lia).
  pose proof (Z.mul_div_le (base_int n) _ H0).
  pose proof (Z.mul_succ_div_gt (base_int n) _ H0).
  rewrite H2, H1. lia.
Qed.

Lemma network_size_and_base_in_range_witness :
  JS.sub (integer (broadcast net_10_0_0_5_24))
    (integer (network net_10_0_0_5_24))
  = Fin (2 ^ (32 - 24) - 1)
  /\ in_range net_10_0_0_5_24 (JS.ToInt32 (integer (ip 10 0 0 5))).
Proof.
  apply (network_size_and_base_in_range (ip 10 0 0 5) 24). lia.
Defined.

(** ** overlaps at the ends of the prefix range *)

(** X5.  A network of prefix length 0 to 32 overlaps itself exactly when
    its prefix length is between 1 and 31. *)
Theorem overlaps_self_iff (a : Ipv4Address) (p : Z) :
  0 <= p <= 32 ->
  let n := new_Ipv4Network a (Fin p) in
  overlaps n n = true <-> 1 <= p <= 31.
Proof.
  intros Hp n. rewrite overlaps_iff.
  destruct (network_shape a p Hp)
    as [(_ & Hc & H1 & H2)|(_ & Hc & H1 & H2 & _)]; fold n in H1, H2.
  - rewrite H1, H2. lia.
  - assert (0 < 2 ^ (32 - p)) by (apply Z.pow_pos_nonneg; lia). lia.
Qed.

Lemma overlaps_self_iff_witness :
  overlaps net_10_47_0_0_16 net_10_47_0_0_16 = true <-> 1 <= 16 <= 31.
Proof. apply (overlaps_self_iff (ip 10 47 0 0) 16). lia. Defined.

(** X6.  A network of prefix length 0 or 32 overlaps no network of prefix
    length 0 to 32, in either argument order. *)
Theorem overlaps_false_at_prefix_0_and_32 (a b : Ipv4Address) (p pb : Z) :
  p = 0 \/ p = 32 -> 0 <= pb <= 32 ->
  overlaps (new_Ipv4Network a (Fin p)) (new_Ipv4Network b (Fin pb)) = false
  /\ overlaps (new_Ipv4Network b (Fin pb)) (new_Ipv4Network a (Fin p)) = false.
Proof.
  intros Hp Hpb.
  assert (H : ~ (network_int (new_Ipv4Network b (Fin pb))
                 <= broadcast_int (new_Ipv4Network a (Fin p))
                 /\ network_int (new_Ipv4Network a (Fin p))
                    <= broadcast_int (new_Ipv4Network b (Fin pb)))).
  { assert (Hp' : 0 <= p <= 32) by lia.
    destruct (network_shape a p Hp')
      as [(_ & _ & H1 & H2)|(_ & Hc & _)]; [|lia].
    rewrite H1, H2.
    destruct (range_shape b pb Hpb) as [[Hb1 Hb2]|[Hb1 Hb2]]; lia. }
  split; apply not_true_is_false; rewrite overlaps_iff; tauto.
Qed.

Lemma overlaps_false_at_prefix_0_and_32_witness :
  overlaps (new_Ipv4Network (ip 0 0 0 0) (Fin 0)) net_10_0_0_0_24 = false
  /\ overlaps net_10_0_0_0_24 (new_Ipv4Network (ip 0 0 0 0) (Fin 0)) = false.
Proof.
  apply (overlaps_false_at_prefix_0_and_32 (ip 0 0 0 0) (ip 10 0 0 0) 0 24);
    lia.
Defined.

(** ** hosts *)

Lemma Zseq_nth_error (len : nat) (start : Z) (k : nat) :
  (k < len)%nat -> nth_error (Zseq start len) k = Some (start + Z.of_nat k).
Proof.
  intros Hk. rewrite (nth_error_nth' _ 0) by (rewrite Zseq_length; exact Hk).
  rewrite Zseq_nth by exact Hk. reflexivity.
Qed.

(** X7.  For prefix lengths 1 to 31, [hosts()] returns 2^(32-p) - 2
    addresses, and the one at index k is [first(true)] plus k: every
    address strictly between the network and the broadcast address, in
    increasing order. *)
Theorem hosts_enumerates_host_range (a : Ipv4Address) (p : Z) :
  1 <= p <= 31 ->
  let n := new_Ipv4Network a (Fin p) in
  exists (fuel : nat) (l : list Ipv4Address),
    (forall fuel', (fuel <= fuel')%nat -> hosts fuel' n = Some l)
    /\ Z.of_nat (List.length l) = 2 ^ (32 - p) - 2
    /\ (forall k, 0 <= k < 2 ^ (32 - p) - 2 ->
          nth_error l (Z.to_nat k)
          = Some (new_Ipv4Address (JS.add (integer (first n true)) (Fin k))))
    /\ JS.add (integer (network n)) (Fin 1) = integer (first n true)
    /\ JS.add (integer (last n true)) (Fin 1) = integer (broadcast n).
Proof.
  intros Hp n.
  assert (Hp' : 0 <= p <= 32) by lia.
  destruct (network_shape a p Hp')
    as [(_ & Hc & _)|(_ & _ & _ & H2 & _)]; [lia|]. fold n in H2.
  assert (H0 : 2 <= 2 ^ (32 - p)).
  { change 2 with (2 ^ 1) at 1. apply Z.pow_le_mono_r; lia. }
  set (len := Z.to_nat (broadcast_int n - network_int n - 1)).
  assert (Hlen : Z.of_nat len = 2 ^ (32 - p) - 2) by (unfold len; lia).
  exists (S len).
  exists (map (fun z => new_Ipv4Address (Fin z)) (Zseq (network_int n + 1) len)).
  split; [|split; [|split; [|split]]].
  - intros fuel' Hf. apply hosts_value. fold len. lia.
  - rewrite length_map, Zseq_length. exact Hlen.
  - intros k Hk. rewrite nth_error_map, Zseq_nth_error by lia.
    rewrite first_host_integer. cbn [option_map JS.add JS.lift2].
    do 3 f_equal. lia.
  - rewrite network_integer, first_host_integer. reflexivity.
  - rewrite last_host_integer, broadcast_integer. cbn [JS.add JS.lift2].
    f_equal. lia.
Qed.

Lemma hosts_enumerates_host_range_witness :
  exists (fuel : nat) (l : list Ipv4Address),
    (forall fuel', (fuel <= fuel')%nat -> hosts fuel' net_10_0_0_0_24 = Some l)
    /\ Z.of_nat (List.length l) = 2 ^ (32 - 24) - 2
    /\ (forall k, 0 <= k < 2 ^ (32 - 24) - 2 ->
          nth_error l (Z.to_nat k)
          = Some (new_Ipv4Address
                    (JS.add (integer (first net_10_0_0_0_24 true)) (Fin k))))
    /\ JS.add (integer (network net_10_0_0_0_24)) (Fin 1)
       = integer (first net_10_0_0_0_24 true)
    /\ JS.add (integer (last net_10_0_0_0_24 true)) (Fin 1)
       = integer (broadcast net_10_0_0_0_24).
Proof.
  apply (hosts_enumerates_host_range (ip 10 0 0 0) 24). lia.
Defined.

(** X8.  When the stored netmask is 0 (prefix length 0, 32, or NaN after
    a CIDR text without a slash), [hosts()] returns the empty array for
    every base address, as soon as the loop condition is tested once. *)
Theorem hosts_empty_when_netmask_0 (a : Ipv4Address) (fuel : nat) :
  hosts (S fuel) (new_Ipv4Network a (Fin 0)) = Some []
  /\ hosts (S fuel) (new_Ipv4Network a (Fin 32)) = Some []
  /\ hosts (S fuel) (new_Ipv4Network a NaN) = Some [].
Proof.
  assert (H : forall n, _netmask n = Fin 0 -> hosts (S fuel) n = Some []).
  { intros n Hn. apply (hosts_fuel_le n [] 1); [lia|].
    unfold hosts. rewrite hosts_loop_step.
    rewrite first_host_integer, last_host_integer.
    unfold broadcast_int, network_int, mask_int. rewrite Hn.
    change (JS.ToInt32 (Fin 0)) with 0. rewrite Z.land_0_r.
    reflexivity. }
  repeat split; apply H; reflexivity.
Qed.

(** ** Parsing and printing *)

Section Text.

Lemma split_not_nil (sep : ascii) (s : string) : Str.split sep s <> [].
Proof.
  induction s as [|c s IH]; simpl; [discriminate|].
  destruct (Ascii.eqb c sep); [discriminate|].
  destruct (Str.split sep s); discriminate.
Qed.

Lemma split_no_slash (s : string) :
  no_slash s = true -> Str.split "/" s = [s].
Proof.
  induction s as [|c s IH]; simpl; [reflexivity|].
  intros H. apply andb_true_iff in H. destruct H as [Hc Hs].
  apply negb_true_iff in Hc. rewrite Hc, (IH Hs). reflexivity.
Qed.

Lemma split_app_slash (s rest : string) :
  no_slash s = true ->
  Str.split "/" (s ++ "/" ++ rest) = s :: Str.split "/" rest.
Proof.
  induction s as [|c s IH]; simpl in *; [reflexivity|].
  intros H. apply andb_true_iff in H. destruct H as [Hc Hs].
  apply negb_true_iff in Hc. rewrite Hc, (IH Hs). reflexivity.
Qed.

Lemma no_slash_app (s1 s2 : string) :
  no_slash (s1 ++ s2) = no_slash s1 && no_slash s2.
Proof.
  induction s1 as [|c s1 IH]; simpl; [reflexivity|].
  rewrite IH, andb_assoc. reflexivity.
Qed.

Lemma octet_no_slash (o : Z) :
  0 <= o < 256 -> no_slash (JS.Number_toString (Fin o)) = true.
Proof.
  intros H. assert (H' : 0 <= o < Z.of_nat 256) by lia. clear H.
  revert o H'. each_below 256%nat.
Qed.

Lemma ToInt32_of_ToUint32 (n : number) :
  JS.ToInt32 (Fin (JS.ToUint32 n)) = JS.ToInt32 n.
Proof.
  unfold JS.ToInt32. cbn [JS.ToUint32].
  rewrite (Z.mod_small (JS.ToUint32 n)) by apply ToUint32_range.
  reflexivity.
Qed.

(** The dotted text of any number, and what [fromString] reads in it. *)
Lemma toIpStr_octets (n : number) :
  exists o0 o1 o2 o3,
    (0 <= o0 < 256) /\ (0 <= o1 < 256) /\ (0 <= o2 < 256) /\ (0 <= o3 < 256)
    /\ o0 * 16777216 + o1 * 65536 + o2 * 256 + o3 = JS.ToUint32 n
    /\ _toIpStr n
       = (JS.Number_toString (Fin o0) ++ "." ++ JS.Number_toString (Fin o1)
          ++ "." ++ JS.Number_toString (Fin o2) ++ "."
          ++ JS.Number_toString (Fin o3))%string.
Proof.
  unfold _toIpStr. rewrite !octet_of_shift, octet_low by lia.
  pose proof (octets_sum (JS.ToUint32 n) (ToUint32_range n)) as Hsum.
  cbv zeta in Hsum. rewrite ToInt32_of_ToUint32 in Hsum.
  exists ((JS.ToInt32 n / 2 ^ 24) mod 256), ((JS.ToInt32 n / 2 ^ 16) mod 256),
    ((JS.ToInt32 n / 2 ^ 8) mod 256), (JS.ToInt32 n mod 256).
  split; [apply Z.mod_pos_bound; lia|].
  split; [apply Z.mod_pos_bound; lia|].
  split; [apply Z.mod_pos_bound; lia|].
  split; [apply Z.mod_pos_bound; lia|].
  split; [exact Hsum | reflexivity].
Qed.

Lemma fromString_toIpStr (n : number) :
  Ipv4Address_fromString (_toIpStr n)
  = Ok (new_Ipv4Address (Fin (JS.ToUint32 n))).
Proof.
  destruct (toIpStr_octets n)
    as (o0 & o1 & o2 & o3 & H0 & H1 & H2 & H3 & Hsum & ->).
  unfold Ipv4Address_fromString.
  rewrite !split_app_dot by (apply octet_no_dot; assumption).
  rewrite split_no_dot by (apply octet_no_dot; assumption).
  unfold Arr.map, Arr.length. cbn [Arr.map_from List.length Z.of_nat].
  rewrite !octet_parse by assumption.
  change (Z.pos (Pos.of_succ_nat 3)) with 4.
  cbn. do 3 f_equal. lia.
Qed.

Lemma toIpStr_no_slash (n : number) : no_slash (_toIpStr n) = true.
Proof.
  destruct (toIpStr_octets n)
    as (o0 & o1 & o2 & o3 & H0 & H1 & H2 & H3 & _ & ->).
  rewrite !no_slash_app, !octet_no_slash by assumption. reflexivity.
Qed.

End Text.

(** X9.  [fromString] returns an address for every text: [split] never
    gives an empty array, so [reduce] always has a first element. *)
Theorem fromString_never_throws (text : string) :
  exists this : Ipv4Address, Ipv4Address_fromString text = Ok this.
Proof.
  unfold Ipv4Address_fromString, Arr.map.
  pose proof (split_not_nil "." text) as H.
  destruct (Str.split "." text) as [|x l] eqn:E; [congruence|].
  cbn [Arr.map_from Arr.reduce]. eexists. reflexivity.
Qed.

(** X10.  Printing any address and parsing the text gives the address
    holding the unsigned 32-bit reading of its integer: a negative integer,
    as [network()] returns above 127.255.255.255, comes back plus 2^32, and
    NaN comes back as 0. *)
Theorem fromString_toString_unsigned (this : Ipv4Address) :
  Ipv4Address_fromString (Ipv4Address_toString this)
  = Ok (new_Ipv4Address (Fin (JS.ToUint32 (integer this)))).
Proof. unfold Ipv4Address_toString. apply fromString_toIpStr. Qed.

(** X11.  For an address in [0, 2^32 - 1] and a prefix length 0 to 32,
    [fromCidr] parses the text [toString] prints back to the same
    network. *)
Theorem fromCidr_toString_roundtrip (v p : Z) :
  0 <= v < 4294967296 -> 0 <= p <= 32 ->
  Ipv4Network_fromCidr
    (Ipv4Network_toString (new_Ipv4Network (new_Ipv4Address (Fin v)) (Fin p)))
  = Ok (new_Ipv4Network (new_Ipv4Address (Fin v)) (Fin p)).
Proof.
  intros Hv Hp.
  unfold Ipv4Network_toString, Ipv4Network_fromCidr, Ipv4Address_toString.
  cbn [address prefixlen new_Ipv4Network _int_repr].
  rewrite split_app_slash by apply toIpStr_no_slash.
  rewrite split_no_slash by (apply octet_no_slash; lia).
  cbn [nth nth_error]. rewrite fromString_toIpStr.
  rewrite octet_parse by lia.
  cbn [JS.ToUint32]. rewrite Z.mod_small by assumption. reflexivity.
Qed.

Lemma fromCidr_toString_roundtrip_witness :
  Ipv4Network_fromCidr (Ipv4Network_toString net_192_168_1_0_24)
  = Ok net_192_168_1_0_24.
Proof.
  apply (fromCidr_toString_roundtrip 3232235776 24); lia.
Defined.

(** X12.  On a text without a slash [fromCidr] returns the network of the
    parsed address with the prefix length NaN, whose netmask is 0. *)
Theorem fromCidr_without_slash (cidr : string) :
  no_slash cidr = true ->
  exists this : Ipv4Address,
    Ipv4Address_fromString cidr = Ok this
    /\ Ipv4Network_fromCidr cidr = Ok (new_Ipv4Network this NaN)
    /\ _netmask (new_Ipv4Network this NaN) = Fin 0.
Proof.
  intros H.
  assert (Hthis : exists this, Ipv4Address_fromString cidr = Ok this).
  { unfold Ipv4Address_fromString, Arr.map.
    pose proof (split_not_nil "." cidr) as Hs.
    destruct (Str.split "." cidr) as [|x l]; [congruence|].
    cbn [Arr.map_from Arr.reduce]. eexists. reflexivity. }
  destruct Hthis as [this E]. exists this. unfold Ipv4Network_fromCidr.
  rewrite (split_no_slash cidr H). cbn [nth nth_error]. rewrite E.
  repeat split.
Qed.

Lemma fromCidr_without_slash_witness :
  exists this : Ipv4Address,
    Ipv4Address_fromString "10.0.0.1" = Ok this
    /\ Ipv4Network_fromCidr "10.0.0.1" = Ok (new_Ipv4Network this NaN)
    /\ _netmask (new_Ipv4Network this NaN) = Fin 0.
Proof. apply (fromCidr_without_slash "10.0.0.1"). reflexivity. Defined.

(** ** binaryPad and bits *)

Section Binary.

Lemma string_length_app (s1 s2 : string) :
  String.length (s1 ++ s2) = (String.length s1 + String.length s2)%nat.
Proof. induction s1 as [|c s1 IH]; simpl; [|rewrite IH]; reflexivity. Qed.

Lemma zeros_text_length (k : nat) : String.length (zeros_text k) = k.
Proof. induction k as [|k IH]; simpl; [|rewrite IH]; reflexivity. Qed.

(** [Math.pow(10, m).toString().substr(1)] is m zeros. *)
Lemma pow10_text (m : Z) :
  0 <= m <= 15 ->
  Str.substr_1 (JS.Number_toString (JS.Math_pow (Fin 10) (Fin m)))
  = zeros_text (Z.to_nat m).
Proof.
  intros H. assert (H' : 0 <= m < Z.of_nat 16) by lia. clear H.
  revert m H'. each_below 16%nat.
Qed.

Lemma octet_bits_text (o : Z) :
  0 <= o < 256 ->
  binaryPad (Str.parseInt (JS.Number_toString_2 (Fin o))) (Fin 8) = bin8 o.
Proof.
  intros H. assert (H' : 0 <= o < Z.of_nat 256) by lia. clear H.
  revert o H'. each_below 256%nat.
Qed.

Lemma octet_of_unsigned_shift (n : number) (s : Z) :
  8 <= s < 32 ->
  JS.band (JS.shr n (Fin s)) (Fin 255)
  = Fin ((JS.ToUint32 n / 2 ^ s) mod 256).
Proof.
  intros Hs. unfold JS.band, JS.shr. rewrite shift_count_small by lia.
  rewrite Z.shiftr_div_pow2 by lia.
  pose proof (ToUint32_range n) as HU.
  assert (H256 : 256 <= 2 ^ s).
  { change 256 with (2 ^ 8). apply Z.pow_le_mono_r; lia. }
  assert (0 <= JS.ToUint32 n / 2 ^ s < 2147483648).
  { split.
    - apply Z.div_pos; lia.
    - apply Z.div_lt_upper_bound; lia. }
  rewrite ToInt32_small by lia.
  change (JS.ToInt32 (Fin 255)) with (Z.ones 8).
  rewrite Z.land_ones by lia. reflexivity.
Qed.

Lemma octet_low_unsigned (n : number) :
  JS.band n (Fin 255) = Fin (JS.ToUint32 n mod 256).
Proof.
  rewrite octet_low. f_equal.
  destruct (ToInt32_ToUint32 n) as [E|E]; rewrite E; [reflexivity|].
  replace (JS.ToUint32 n - 4294967296)
    with (JS.ToUint32 n + (-16777216) * 256) by lia.
  apply Z.mod_add. lia.
Qed.

End Binary.

(** X13.  For an integer below 2^53 in absolute value and a width from
    0 to 15, [binaryPad] returns the decimal text of the absolute value
    with zeros in front up to the width, and the text alone when it is
    already that long. *)
Theorem binaryPad_pads_with_zeros (z k : Z) :
  Z.abs z < 2 ^ 53 -> 0 <= k <= 15 ->
  let text := JS.Number_toString (Fin (Z.abs z)) in
  binaryPad (Fin z) (Fin k)
  = (zeros_text (Z.to_nat k - String.length text) ++ text)%string
  /\ String.length (binaryPad (Fin z) (Fin k))
     = Nat.max (Z.to_nat k) (String.length text).
Proof.
  intros Hz Hk text.
  assert (E : binaryPad (Fin z) (Fin k)
              = (zeros_text (Z.to_nat k - String.length text) ++ text)%string).
  { unfold binaryPad, JS.Math_floor, Str.length.
    cbn [JS.Math_abs JS.sub JS.Math_max JS.lift2]. fold text.
    rewrite pow10_text by lia. do 2 f_equal. lia. }
  split; [exact E|].
  rewrite E, string_length_app, zeros_text_length. lia.
Qed.

Lemma binaryPad_pads_with_zeros_witness :
  binaryPad (Fin (-101)) (Fin 8)
  = (zeros_text (Z.to_nat 8
                 - String.length (JS.Number_toString (Fin (Z.abs (-101)))))
     ++ JS.Number_toString (Fin (Z.abs (-101))))%string
  /\ String.length (binaryPad (Fin (-101)) (Fin 8))
     = Nat.max (Z.to_nat 8)
         (String.length (JS.Number_toString (Fin (Z.abs (-101))))).
Proof.
  apply (binaryPad_pads_with_zeros (-101) 8); [reflexivity | lia].
Defined.

(** X14.  [bits()] of any address is four groups of eight binary digits
    joined by dots: group k spells octet k of the unsigned 32-bit reading
    of the integer, most significant bit first. *)
Theorem bits_spells_octets (this : Ipv4Address) :
  bits this
  = Str.join "."
      [ bin8 (octet (integer this) 0); bin8 (octet (integer this) 1);
        bin8 (octet (integer this) 2); bin8 (octet (integer this) 3) ].
Proof.
  unfold bits, octet, integer.
  rewrite !octet_of_unsigned_shift, octet_low_unsigned by lia.
  change (24 - 8 * 0) with 24. change (24 - 8 * 1) with 16.
  change (24 - 8 * 2) with 8. change (24 - 8 * 3) with 0.
  change (2 ^ 0) with 1. rewrite (Z.div_1_r (JS.ToUint32 (_int_repr this))).
  rewrite !octet_bits_text by (apply Z.mod_pos_bound; lia).
  reflexivity.
Qed.

(** ** split, overlaps and merge together *)

Lemma split_fuel_le (n : Ipv4Network) (q : number)
    (r : result (list Ipv4Network)) (fuel fuel' : nat) :
  (fuel <= fuel')%nat ->
  split fuel n q = Some r -> split fuel' n q = Some r.
Proof.
  intros Hf. unfold split. destruct (JS.le q (prefixlen n)); [trivial|].
  destruct (split_loop fuel n q _ (Fin 0) []) as [l|] eqn:E; [|discriminate].
  rewrite (split_loop_fuel_le _ _ _ _ _ _ _ _ Hf E). trivial.
Qed.

(** Whatever fuel [split] returned with, it returned the children of the
    loop. *)
Lemma split_result (a : Ipv4Address) (p q : Z) (fuel : nat)
    (networks : list Ipv4Network) :
  p < q ->
  split fuel (new_Ipv4Network a (Fin p)) (Fin q) = Some (Ok networks) ->
  networks
  = map (child (new_Ipv4Network a (Fin p)) (Fin q))
      (Zseq 0 (Z.to_nat (2 ^ (q - p)))).
Proof.
  intros Hpq H.
  set (big := Nat.max fuel (S (Z.to_nat (2 ^ (q - p))))).
  assert (H1 : split big (new_Ipv4Network a (Fin p)) (Fin q)
               = Some (Ok networks))
    by (apply (split_fuel_le _ _ _ fuel); [lia | exact H]).
  rewrite split_children in H1 by (try assumption; lia).
  congruence.
Qed.

(** X15.  For 0 <= p < q <= 32 with q - p <= 31 and any base address,
    [split(q)] returns 2^(q-p) networks, all of prefix length q, the one
    at index i built on [((base >>> (32-q)) + i) << (32-q)]. *)
Theorem split_count_and_prefix (a : Ipv4Address) (p q : Z) :
  0 <= p -> p < q -> q <= 32 -> q - p <= 31 ->
  let n := new_Ipv4Network a (Fin p) in
  exists (fuel : nat) (networks : list Ipv4Network),
    (forall fuel', (fuel <= fuel')%nat ->
       split fuel' n (Fin q) = Some (Ok networks))
    /\ Z.of_nat (List.length networks) = 2 ^ (q - p)
    /\ (forall c, In c networks -> prefixlen c = Fin q)
    /\ (forall i, 0 <= i < 2 ^ (q - p) ->
          nth_error networks (Z.to_nat i)
          = Some (new_Ipv4Network
                    (new_Ipv4Address
                       (JS.shl
                          (JS.add
                             (JS.shr (integer a)
                                (JS.sub IPV4_MAX_PREFIXLEN (Fin q)))
                             (Fin i))
                          (JS.sub IPV4_MAX_PREFIXLEN (Fin q))))
                    (Fin q))).
Proof.
  intros Hp Hpq Hq Hsize n.
  assert (H0 : 0 < 2 ^ (q - p)) by (apply Z.pow_pos_nonneg; lia).
  exists (S (Z.to_nat (2 ^ (q - p)))).
  exists (map (child n (Fin q)) (Zseq 0 (Z.to_nat (2 ^ (q - p))))).
  split; [|split; [|split]].
  - intros fuel' Hf. apply split_children; [assumption | lia].
  - rewrite length_map, Zseq_length. lia.
  - intros c Hc. apply in_map_iff in Hc. destruct Hc as (i & <- & _).
    reflexivity.
  - intros i Hi. rewrite nth_error_map, Zseq_nth_error by lia.
    replace (0 + Z.of_nat (Z.to_nat i)) with i by lia. reflexivity.
Qed.

Lemma split_count_and_prefix_witness :
  exists (fuel : nat) (networks : list Ipv4Network),
    (forall fuel', (fuel <= fuel')%nat ->
       split fuel' net_10_47_64_0_16 (Fin 18) = Some (Ok networks))
    /\ Z.of_nat (List.length networks) = 2 ^ (18 - 16)
    /\ (forall c, In c networks -> prefixlen c = Fin 18)
    /\ (forall i, 0 <= i < 2 ^ (18 - 16) ->
          nth_error networks (Z.to_nat i)
          = Some (new_Ipv4Network
                    (new_Ipv4Address
                       (JS.shl
                          (JS.add
                             (JS.shr (integer (ip 10 47 64 0))
                                (JS.sub IPV4_MAX_PREFIXLEN (Fin 18)))
                             (Fin i))
                          (JS.sub IPV4_MAX_PREFIXLEN (Fin 18))))
                    (Fin 18))).
Proof.
  apply (split_count_and_prefix (ip 10 47 64 0) 16 18); lia.
Defined.

Section SplitCompose.

Variable a : Ipv4Address.
Variables p q : Z.
Hypothesis Hp : 1 <= p.
Hypothesis Hpq : p < q.
Hypothesis Hq : q <= 31.

Let n : Ipv4Network := new_Ipv4Network a (Fin p).

Hypothesis Hbase :
  JS.shr (integer a) (JS.sub IPV4_MAX_PREFIXLEN (Fin q))
  = JS.shr (integer (network n)) (JS.sub IPV4_MAX_PREFIXLEN (Fin q)).

(** X16.  Under the conditions of the partition (1 <= p < q <= 31, the
    base with the top q bits of the network address), [split(q)] returns
    2^(q-p) networks; the network overlaps every one of them, in both
    argument orders, and no two of them overlap. *)
Theorem split_children_overlap_parent_only :
  exists (fuel : nat) (networks : list Ipv4Network),
    (forall fuel', (fuel <= fuel')%nat ->
       split fuel' n (Fin q) = Some (Ok networks))
    /\ Z.of_nat (List.length networks) = 2 ^ (q - p)
    /\ (forall c, In c networks ->
          overlaps n c = true /\ overlaps c n = true)
    /\ (forall (i j : nat) (c d : Ipv4Network),
          i <> j ->
          nth_error networks i = Some c -> nth_error networks j = Some d ->
          overlaps c d = false).
Proof.
  destruct (split_powers a p q Hp Hpq Hq) as (HS & HD & Hk & _).
  destruct (parent_range a p q Hp Hpq Hq) as (_ & Hbc). fold n in Hbc.
  exists (S (Z.to_nat (2 ^ (q - p)))).
  exists (map (child n (Fin q)) (Zseq 0 (Z.to_nat (2 ^ (q - p))))).
  split; [|split; [|split]].
  - intros fuel' Hf. apply split_children; [exact Hpq | lia].
  - rewrite length_map, Zseq_length. lia.
  - intros c Hc. apply in_map_iff in Hc. destruct Hc as (i & <- & Hi).
    apply Zseq_In in Hi. assert (Hi' : 0 <= i < 2 ^ (q - p)) by lia.
    destruct (child_range a p q Hp Hpq Hq Hbase i Hi') as (E1 & E2).
    fold n in E1, E2. rewrite !overlaps_iff, E1, E2, Hbc. nia.
  - intros i j c d Hij Hc Hd.
    apply (nth_error_children a p q) in Hc; try assumption.
    apply (nth_error_children a p q) in Hd; try assumption.
    destruct Hc as (-> & Hi). destruct Hd as (-> & Hj). fold n.
    destruct (child_range a p q Hp Hpq Hq Hbase _ Hi) as (E1 & E2).
    destruct (child_range a p q Hp Hpq Hq Hbase _ Hj) as (E3 & E4).
    fold n in E1, E2, E3, E4.
    apply not_true_is_false. rewrite overlaps_iff, E1, E2, E3, E4.
    intros [H1 H2].
    assert (Z.of_nat i < Z.of_nat j \/ Z.of_nat j < Z.of_nat i) by lia.
    nia.
Qed.

End SplitCompose.

Lemma split_children_overlap_parent_only_witness :
  exists (fuel : nat) (networks : list Ipv4Network),
    (forall fuel', (fuel <= fuel')%nat ->
       split fuel' net_10_47_0_0_16 (Fin 18) = Some (Ok networks))
    /\ Z.of_nat (List.length networks) = 2 ^ (18 - 16)
    /\ (forall c, In c networks ->
          overlaps net_10_47_0_0_16 c = true
          /\ overlaps c net_10_47_0_0_16 = true)
    /\ (forall (i j : nat) (c d : Ipv4Network),
          i <> j ->
          nth_error networks i = Some c -> nth_error networks j = Some d ->
          overlaps c d = false).
Proof.
  apply (split_children_overlap_parent_only (ip 10 47 0 0) 16 18);
    [lia | lia | lia | reflexivity].
Defined.

Section Halves.

Variable a : Ipv4Address.
Variable p : Z.
Hypothesis Hp : 1 <= p <= 30.

Let n : Ipv4Network := new_Ipv4Network a (Fin p).

Hypothesis Hbase :
  JS.shr (integer a) (JS.sub IPV4_MAX_PREFIXLEN (Fin (p + 1)))
  = JS.shr (integer (network n)) (JS.sub IPV4_MAX_PREFIXLEN (Fin (p + 1))).

Let lower : Ipv4Network := child n (Fin (p + 1)) 0.
Let upper : Ipv4Network := child n (Fin (p + 1)) 1.

Lemma halves_of_split (fuel : nat) (networks : list Ipv4Network) :
  split fuel n (Fin (p + 1)) = Some (Ok networks) ->
  networks = [lower; upper].
Proof.
  intros H. apply split_result in H; [|lia]. rewrite H.
  replace (p + 1 - p) with 1 by lia. reflexivity.
Qed.

Lemma halves_ranges :
  2 <= 2 ^ (32 - (p + 1))
  /\ integer (address lower) = Fin (network_int n)
  /\ integer (address upper) = Fin (network_int n + 2 ^ (32 - (p + 1)))
  /\ network_int lower = network_int n
  /\ broadcast_int lower = network_int n + 2 ^ (32 - (p + 1)) - 1
  /\ network_int upper = network_int n + 2 ^ (32 - (p + 1))
  /\ broadcast_int upper = network_int n + 2 * 2 ^ (32 - (p + 1)) - 1.
Proof.
  assert (H1 : 1 <= p) by lia. assert (H2 : p < p + 1) by lia.
  assert (H3 : p + 1 <= 31) by lia.
  assert (HD : 2 ^ (p + 1 - p) = 2) by (replace (p + 1 - p) with 1 by lia;
                                         reflexivity).
  assert (I0 : 0 <= 0 < 2 ^ (p + 1 - p)) by lia.
  assert (I1 : 0 <= 1 < 2 ^ (p + 1 - p)) by lia.
  pose proof (child_address_int a p (p + 1) H1 H2 H3 Hbase 0 I0) as A0.
  pose proof (child_address_int a p (p + 1) H1 H2 H3 Hbase 1 I1) as A1.
  destruct (child_range a p (p + 1) H1 H2 H3 Hbase 0 I0) as (N0 & B0).
  destruct (child_range a p (p + 1) H1 H2 H3 Hbase 1 I1) as (N1 & B1).
  fold n lower in A0, N0, B0. fold n upper in A1, N1, B1.
  split.
  { change 2 with (2 ^ 1) at 1. apply Z.pow_le_mono_r; lia. }
  rewrite A0, A1, N0, B0, N1, B1.
  repeat split; f_equal; lia.
Qed.

Lemma halves_split_returns (fuel : nat) :
  (2 < fuel)%nat ->
  split fuel n (Fin (p + 1)) = Some (Ok [lower; upper]).
Proof.
  intros Hf. unfold n. rewrite split_children.
  - replace (p + 1 - p) with 1 by lia. reflexivity.
  - lia.
  - replace (p + 1 - p) with 1 by lia. exact Hf.
Qed.

(** X17.  For 1 <= p <= 30 and a base with the top p+1 bits of the
    network address, [split(p+1)] returns two networks, and merging the
    first with the second gives the network built on [network()] with
    prefix length p. *)
Theorem merge_of_split_halves :
  exists (fuel : nat) (first_half second_half : Ipv4Network),
    (forall fuel', (fuel <= fuel')%nat ->
       split fuel' n (Fin (p + 1)) = Some (Ok [first_half; second_half]))
    /\ merge first_half second_half
       = Ok (new_Ipv4Network (network n) (Fin p)).
Proof.
  exists 3%nat, lower, upper.
  split; [intros fuel' Hf; apply halves_split_returns; lia|].
  destruct halves_ranges as (HS & A0 & A1 & N0 & B0 & N1 & B1).
  unfold merge.
  assert (Hc : isContiguous lower upper = true).
  { apply isContiguous_iff. rewrite B0, N1. lia. }
  rewrite Hc. cbn [negb]. rewrite A0, A1.
  change (prefixlen lower) with (Fin (p + 1)).
  change (prefixlen upper) with (Fin (p + 1)).
  unfold JS.neq, JS.eq, JS.cmp. rewrite Z.eqb_refl. cbn [negb].
  cbn [JS.Math_min JS.sub JS.lift2].
  replace (Z.min (network_int n) (network_int n + 2 ^ (32 - (p + 1))))
    with (network_int n) by lia.
  replace (p + 1 - 1) with p by lia.
  rewrite <- (network_integer n).
  destruct (network n) as [x]. reflexivity.
Qed.

(** X18.  Under the same conditions, [split(p+1)] returns two networks
    that are contiguous in that order only: merging the second with the
    first throws, as [isContiguous] only accepts a network followed by
    its argument. *)
Theorem merge_of_split_halves_reversed :
  exists (fuel : nat) (first_half second_half : Ipv4Network),
    (forall fuel', (fuel <= fuel')%nat ->
       split fuel' n (Fin (p + 1)) = Some (Ok [first_half; second_half]))
    /\ isContiguous first_half second_half = true
    /\ isContiguous second_half first_half = false
    /\ merge second_half first_half
       = Throw "Address space must be congiguous in order to merge networks".
Proof.
  exists 3%nat, lower, upper.
  split; [intros fuel' Hf; apply halves_split_returns; lia|].
  destruct halves_ranges as (HS & A0 & A1 & N0 & B0 & N1 & B1).
  assert (Hc : isContiguous lower upper = true).
  { apply isContiguous_iff. rewrite B0, N1. lia. }
  assert (Hr : isContiguous upper lower = false).
  { apply not_true_is_false. rewrite isContiguous_iff, B1, N0. lia. }
  split; [exact Hc|]. split; [exact Hr|].
  unfold merge. rewrite Hr. reflexivity.
Qed.

End Halves.

Lemma merge_of_split_halves_witness :
  exists (fuel : nat) (first_half second_half : Ipv4Network),
    (forall fuel', (fuel <= fuel')%nat ->
       split fuel' net_10_47_0_0_16 (Fin (16 + 1))
       = Some (Ok [first_half; second_half]))
    /\ merge first_half second_half
       = Ok (new_Ipv4Network (network net_10_47_0_0_16) (Fin 16)).
Proof.
  apply (merge_of_split_halves (ip 10 47 0 0) 16); [lia | reflexivity].
Defined.

Lemma merge_of_split_halves_reversed_witness :
  exists (fuel : nat) (first_half second_half : Ipv4Network),
    (forall fuel', (fuel <= fuel')%nat ->
       split fuel' net_10_47_0_0_16 (Fin (16 + 1))
       = Some (Ok [first_half; second_half]))
    /\ isContiguous first_half second_half = true
    /\ isContiguous second_half first_half = false
    /\ merge second_half first_half
       = Throw "Address space must be congiguous in order to merge networks".
Proof.
  apply (merge_of_split_halves_reversed (ip 10 47 0 0) 16);
    [lia | reflexivity].
Defined.
